(** * GreenSync front end: form validation, catalogue filtering, view toggles

    A shallow embedding of the stateful logic of the GreenSync React Native
    application: the sign-up and login handlers ([SignUpScreen],
    [LoginScreen]), the catalogue view of [SelectionScreen] and the toggle
    handlers of [ProfileScreen] and [InsightsScreen].

    JavaScript strings are modelled by [string], one [ascii] per UTF-16 code
    unit, so the model covers strings whose code units are below 256. *)

From Stdlib Require Import ZArith NArith Ascii String List Bool Lia.
From Stdlib Require Import Sorting.Permutation Sorting.Sorted.
From stdpp Require Import base option gmap.

Import ListNotations.
Local Open Scope string_scope.
Local Open Scope list_scope.

(* ===================================================================== *)
(** ** The JavaScript primitives the screens rely on *)
(* ===================================================================== *)

Module JS.

(** [!!s] for a string [s]: only the empty string is falsy. *)
Definition truthy (s : string) : bool :=
  match s with
  | EmptyString => false
  | String _ _ => true
  end.

(** Code unit of a character. *)
Definition code (c : ascii) : N := N_of_ascii c.

(** The regular expression class [\s] on code units below 256:
    TAB, LF, VT, FF, CR, SPACE and NO-BREAK SPACE. *)
Definition isWhiteSpace (c : ascii) : bool :=
  let n := code c in
  ((9 <=? n) && (n <=? 13) || (n =? 32) || (n =? 160))%N.

(** [String.prototype.toLowerCase] on one code unit below 256: the letters
    A-Z and the Latin-1 capitals U+00C0-U+00DE (but U+00D7, the
    multiplication sign) move up by 32. *)
Definition lowerChar (c : ascii) : ascii :=
  let n := code c in
  if ((65 <=? n) && (n <=? 90))%N then ascii_of_N (n + 32)
  else if ((192 <=? n) && (n <=? 222) && negb (n =? 215))%N
       then ascii_of_N (n + 32)
  else c.

Fixpoint toLowerCase (s : string) : string :=
  match s with
  | EmptyString => EmptyString
  | String c s' => String (lowerChar c) (toLowerCase s')
  end.

(** [s.includes(sub)]: [sub] occurs in [s] at some position. *)
Fixpoint includes (s sub : string) : bool :=
  if String.prefix sub s then true
  else match s with
       | EmptyString => false
       | String _ s' => includes s' sub
       end.

(** The numbers a comparator can return: an integer or [NaN]. *)
Inductive number : Type :=
  | Num (z : Z)
  | NaN.

(** [ToNumber] of a property holding a boolean or [undefined]. *)
Definition toNumber (v : option bool) : number :=
  match v with
  | Some true => Num 1
  | Some false => Num 0
  | None => NaN
  end.

(** The binary [-] operator. *)
Definition sub (a b : number) : number :=
  match a, b with
  | Num x, Num y => Num (x - y)
  | _, _ => NaN
  end.

Section Sort.
Context {A : Type}.
Variable comparefn : A -> A -> number.

(** [SortCompare] of ECMAScript: a [NaN] from the comparator counts as 0. *)
Definition sortCompare (x y : A) : Z :=
  match comparefn x y with
  | Num v => v
  | NaN => 0
  end.

(** [x] goes in front of the first element it is strictly smaller than. *)
Fixpoint insert (x : A) (l : list A) : list A :=
  match l with
  | [] => [x]
  | y :: l' =>
      if (sortCompare x y <? 0)%Z then x :: y :: l' else y :: insert x l'
  end.

(** [Array.prototype.sort(comparefn)] on the elements of an array: a stable
    sort (ECMAScript 2019), here by insertion from left to right. *)
Definition sort (l : list A) : list A :=
  fold_left (fun acc x => insert x acc) l [].

(** [x] is not after [y] in the order of the comparator. *)
Definition notAfter (x y : A) : Prop := (sortCompare x y <= 0)%Z.

End Sort.

(** Primary collation weight of a code unit: space first, then the other
    non-alphanumeric characters, digits, and letters without regard to
    case. *)
Definition collationWeight (c : ascii) : N :=
  let n := code c in
  if (n =? 32)%N then 0%N
  else if ((48 <=? n) && (n <=? 57))%N then (1000 + n)%N
  else if ((65 <=? n) && (n <=? 90))%N then (2000 + n + 32)%N
  else if ((97 <=? n) && (n <=? 122))%N then (2000 + n)%N
  else (1 + n)%N.

(** Case weight of a code unit: lower case comes before upper case. *)
Definition caseWeight (c : ascii) : N :=
  let n := code c in
  if ((65 <=? n) && (n <=? 90))%N then 1%N else 0%N.

(** Comparison of two strings by the weights of their code units: the first
    difference wins, and a proper prefix comes first. *)
Fixpoint lexCompare (weight : ascii -> N) (a b : string) : comparison :=
  match a, b with
  | EmptyString, EmptyString => Eq
  | EmptyString, String _ _ => Lt
  | String _ _, EmptyString => Gt
  | String x a', String y b' =>
      match N.compare (weight x) (weight y) with
      | Eq => lexCompare weight a' b'
      | o => o
      end
  end.

Definition signOf (o : comparison) : Z :=
  match o with
  | Lt => (-1)%Z
  | Eq => 0%Z
  | Gt => 1%Z
  end.

(** [a.localeCompare(b)] in the root locale, for strings of ASCII letters,
    digits and spaces (all that the catalogue holds): the primary weights
    decide, and case only breaks ties. The result is -1, 0 or 1. *)
Definition localeCompare (a b : string) : Z :=
  match lexCompare collationWeight a b with
  | Eq => signOf (lexCompare caseWeight a b)
  | o => signOf o
  end.

End JS.

(* ===================================================================== *)
(** ** Regular expressions, as far as [emailRegex] needs them *)
(* ===================================================================== *)

Module RegExp.

Inductive regex : Type :=
  | Void
  | Eps
  | Class (p : ascii -> bool)
  | Cat (r1 r2 : regex)
  | Alt (r1 r2 : regex)
  | Star (r : regex).

(** [r+] *)
Definition Plus (r : regex) : regex := Cat r (Star r).

Fixpoint nullable (r : regex) : bool :=
  match r with
  | Void => false
  | Eps => true
  | Class _ => false
  | Cat r1 r2 => nullable r1 && nullable r2
  | Alt r1 r2 => nullable r1 || nullable r2
  | Star _ => true
  end.

Fixpoint deriv (c : ascii) (r : regex) : regex :=
  match r with
  | Void => Void
  | Eps => Void
  | Class p => if p c then Eps else Void
  | Cat r1 r2 =>
      if nullable r1 then Alt (Cat (deriv c r1) r2) (deriv c r2)
      else Cat (deriv c r1) r2
  | Alt r1 r2 => Alt (deriv c r1) (deriv c r2)
  | Star r' => Cat (deriv c r') (Star r')
  end.

(** [/^r$/.test(s)]: with both anchors the whole string has to match. *)
Fixpoint test (r : regex) (s : string) : bool :=
  match s with
  | EmptyString => nullable r
  | String c s' => test (deriv c r) s'
  end.

(** The words of a regular expression. *)
Inductive lang : regex -> string -> Prop :=
  | lang_eps : lang Eps ""
  | lang_class p c : p c = true -> lang (Class p) (String c "")
  | lang_cat r1 r2 s1 s2 :
      lang r1 s1 -> lang r2 s2 -> lang (Cat r1 r2) (s1 ++ s2)
  | lang_alt_l r1 r2 s : lang r1 s -> lang (Alt r1 r2) s
  | lang_alt_r r1 r2 s : lang r2 s -> lang (Alt r1 r2) s
  | lang_star_nil r : lang (Star r) ""
  | lang_star_cons r s1 s2 :
      lang r s1 -> lang (Star r) s2 -> lang (Star r) (s1 ++ s2).

End RegExp.

(* ===================================================================== *)
(** ** The world the handlers act on *)
(* ===================================================================== *)

(** What a handler can reach: the [UserContext] value, the navigation stack,
    the alerts shown to the user and the console. *)
Module App.

(** A route of the stack navigator with its [username] parameter. *)
Record Route : Type := mkRoute {
  routeName : string;
  routeUsername : string
}.

(** The dashboard route opened for the user [u]. *)
Definition dashboard (u : string) : Route :=
  {| routeName := "Dashboard"; routeUsername := u |}.

(** What a callback stored in an alert button does when it is pressed. *)
Inductive Callback : Type :=
  | NavigateTo (name : string) (username : string).

Record Button : Type := mkButton {
  text : string;
  onPress : Callback
}.

(** A notification on screen: [window.alert(message)] of the browser or
    [Alert.alert(title, message, buttons)] of React Native. *)
Inductive Notice : Type :=
  | WindowAlert (message : string)
  | NativeAlert (title message : string) (buttons : list Button).

Record World : Type := mkWorld {
  (** [username] of [UserProvider]: [None] is [null] *)
  contextUsername : option string;
  (** navigation state, focused route first *)
  routes : list Route;
  (** notifications shown so far, oldest first *)
  notices : list Notice;
  (** lines written by [console.log] *)
  console : list (list string)
}.

(** [useState(null)] of [UserProvider], on the first screen of the stack. *)
Definition initialWorld : World :=
  {| contextUsername := None;
     routes := [mkRoute "Icon" ""];
     notices := [];
     console := [] |}.

(** Handlers are state transformers over the world. *)
Definition M (A : Type) : Type := World -> A * World.

Definition ret {A} (a : A) : M A := fun w => (a, w).
Definition bind {A B} (m : M A) (k : A -> M B) : M B :=
  fun w => let (a, w') := m w in k a w'.
Definition exec {A} (m : M A) (w : World) : World := snd (m w).

Declare Scope app_scope.
Delimit Scope app_scope with app.
Bind Scope app_scope with M.

Module Import Notations.
Notation "m1 ;; m2" := (bind m1 (fun _ => m2))
  (at level 100, m2 at level 200, right associativity) : app_scope.
End Notations.

(** [setUsername] handed out by [UserContext.Provider]. *)
Definition setContextUsername (u : string) : M unit :=
  fun w => (tt, {| contextUsername := Some u; routes := routes w;
                   notices := notices w; console := console w |}).

Definition show (n : Notice) : M unit :=
  fun w => (tt, {| contextUsername := contextUsername w; routes := routes w;
                   notices := notices w ++ [n]; console := console w |}).

Definition window_alert (message : string) : M unit :=
  show (WindowAlert message).

Definition Alert_alert (title message : string) (buttons : list Button)
  : M unit :=
  show (NativeAlert title message buttons).

Definition console_log (args : list string) : M unit :=
  fun w => (tt, {| contextUsername := contextUsername w; routes := routes w;
                   notices := notices w; console := console w ++ [args] |}).

(** [navigation.navigate(name, { username })]: the route gets the focus. *)
Definition navigate (name username : string) : M unit :=
  fun w => (tt, {| contextUsername := contextUsername w;
                   routes := mkRoute name username :: routes w;
                   notices := notices w; console := console w |}).

(** [navigation.reset({ index: 0, routes })]: the stack is replaced. *)
Definition reset (rs : list Route) : M unit :=
  fun w => (tt, {| contextUsername := contextUsername w; routes := rs;
                   notices := notices w; console := console w |}).

(** The user presses a button of an alert. *)
Definition press (b : Button) : M unit :=
  match onPress b with
  | NavigateTo name username => navigate name username
  end.

(** The route that has the focus. *)
Definition focused (w : World) : option Route := head (routes w).

End App.

Import App.Notations.
Local Open Scope app_scope.

(* ===================================================================== *)
(** ** SignUpScreen *)
(* ===================================================================== *)

Module SignUpScreen.
Import App.

(** [[^\s@]] *)
Definition notSpaceAt (c : ascii) : bool :=
  negb (JS.isWhiteSpace c || Ascii.eqb c "@").

Definition isAt (c : ascii) : bool := Ascii.eqb c "@".
Definition isDot (c : ascii) : bool := Ascii.eqb c ".".

(** [/^[^\s@]+@[^\s@]+\.[^\s@]+$/] *)
Definition emailRegex : RegExp.regex :=
  RegExp.Cat (RegExp.Plus (RegExp.Class notSpaceAt))
    (RegExp.Cat (RegExp.Class isAt)
       (RegExp.Cat (RegExp.Plus (RegExp.Class notSpaceAt))
          (RegExp.Cat (RegExp.Class isDot)
             (RegExp.Plus (RegExp.Class notSpaceAt))))).

(** The form state of the screen. *)
Record Form : Type := mkForm {
  username : string;
  email : string;
  password : string;
  agree : bool
}.

(** [handleSignUp] on the platform [os] ([Platform.OS]). *)
Definition handleSignUp (os : string) (f : Form) : M unit :=
  if negb (JS.truthy (username f)) || negb (JS.truthy (email f))
     || negb (JS.truthy (password f)) then
    if String.eqb os "web"
    then window_alert "Missing Info: Please fill out all fields."
    else Alert_alert "Missing Info" "Please fill out all fields." []
  else if negb (RegExp.test emailRegex (email f)) then
    if String.eqb os "web"
    then window_alert "Invalid Email: Please enter a valid email address."
    else Alert_alert "Invalid Email" "Please enter a valid email address." []
  else if negb (agree f) then
    if String.eqb os "web"
    then window_alert "Terms Required: You must agree to the terms & policy."
    else Alert_alert "Terms Required" "You must agree to the terms & policy." []
  else if String.eqb os "web" then
    window_alert "You have successfully signed up!" ;;
    navigate "Dashboard" (username f)
  else
    setContextUsername (username f) ;;
    Alert_alert "Signed Up" "You have successfully signed up!"
      [ {| text := "OK"; onPress := NavigateTo "Dashboard" (username f) |} ].

(** The three ways sign-up is refused. *)
Inductive SignUpError : Type :=
  | MissingField
  | InvalidEmail
  | TermsNotAccepted.

(** The notification that tells the user of a refusal on platform [os]. *)
Definition errorNotice (os : string) (e : SignUpError) : Notice :=
  match e with
  | MissingField =>
      if String.eqb os "web"
      then WindowAlert "Missing Info: Please fill out all fields."
      else NativeAlert "Missing Info" "Please fill out all fields." []
  | InvalidEmail =>
      if String.eqb os "web"
      then WindowAlert "Invalid Email: Please enter a valid email address."
      else NativeAlert "Invalid Email" "Please enter a valid email address." []
  | TermsNotAccepted =>
      if String.eqb os "web"
      then WindowAlert "Terms Required: You must agree to the terms & policy."
      else NativeAlert "Terms Required"
             "You must agree to the terms & policy." []
  end.

(** Sign-up fails with [e] between [w] and [w']: the notification of [e],
    and nothing else, was shown; session, navigation and console are as
    before. *)
Definition failsWith (os : string) (e : SignUpError) (w w' : World) : Prop :=
  notices w' = notices w ++ [errorNotice os e]
  /\ contextUsername w' = contextUsername w
  /\ routes w' = routes w
  /\ console w' = console w.

(** The shape [localpart@domain.tld]: three non-empty parts free of white
    space and of [@], separated by one [@] and a dot. *)
Fixpoint allChars (p : ascii -> bool) (s : string) : bool :=
  match s with
  | EmptyString => true
  | String c s' => p c && allChars p s'
  end.

Definition part (s : string) : Prop :=
  s <> "" /\ allChars notSpaceAt s = true.

Definition emailShape (s : string) : Prop :=
  exists localpart domain tld,
    s = (localpart ++ "@" ++ domain ++ "." ++ tld)%string
    /\ part localpart /\ part domain /\ part tld.

(** The button of the "Signed Up" alert. *)
Definition okButton (u : string) : Button :=
  {| text := "OK"; onPress := NavigateTo "Dashboard" u |}.

(** A form that passes the three checks of [handleSignUp]. *)
Definition validForm (f : Form) : Prop :=
  username f <> "" /\ email f <> "" /\ password f <> ""
  /\ RegExp.test emailRegex (email f) = true /\ agree f = true.

(** What the specification promises of a valid sign-up: when the handler
    returns, the session holds the user name and the dashboard has the
    focus. *)
Definition signedUpInDashboard (os : string) (f : Form) (w : World) : Prop :=
  let w' := exec (handleSignUp os f) w in
  contextUsername w' = Some (username f)
  /\ focused w' = Some (dashboard (username f)).

Definition sampleForm : Form :=
  {| username := "alice"; email := "alice@example.com";
     password := "secret"; agree := true |}.

End SignUpScreen.

(* ===================================================================== *)
(** ** LoginScreen *)
(* ===================================================================== *)

Module LoginScreen.
Import App.

Definition newline : string := String (ascii_of_nat 10) "".

(** The unified [alert(title, message)] helper of the screen. *)
Definition alert (os title message : string) : M unit :=
  if String.eqb os "web"
  then window_alert
         (if JS.truthy message then (title ++ newline ++ message)%string
          else title)
  else Alert_alert title message [].

(** [handleLogin] for the form state [username], [password]. *)
Definition handleLogin (os username password : string) : M unit :=
  if negb (JS.truthy username) || negb (JS.truthy password) then
    alert os "Login Error"
      "Please fill out both Username and Password fields before logging in."
  else
    setContextUsername username ;;
    console_log ["Navigating to Dashboard with username:"; username] ;;
    reset [ {| routeName := "Dashboard"; routeUsername := username |} ].

(** The notification of a refused login on platform [os]. *)
Definition loginErrorNotice (os : string) : Notice :=
  if String.eqb os "web"
  then WindowAlert
         ("Login Error" ++ newline ++
          "Please fill out both Username and Password fields before logging in.")
  else NativeAlert "Login Error"
         "Please fill out both Username and Password fields before logging in."
         [].

End LoginScreen.

(* ===================================================================== *)
(** ** Arrays as heap objects *)
(* ===================================================================== *)

(** An array value is a reference; [filter] allocates a new array, [sort]
    reorders the array it is called on and returns the same reference. *)
Module JSArray.

(** References to arrays. *)
Definition ref : Type := positive.

Section Arrays.
Context {A : Type}.

(** A computation on the heap of arrays; [None] is a dangling reference. *)
Definition Op (R : Type) : Type :=
  gmap positive (list A) -> option (R * gmap positive (list A)).

(** A new array gets a reference that is not in use. *)
Definition alloc (l : list A) : Op ref :=
  fun h => let r := fresh (dom h) in Some (r, <[r := l]> h).

(** [a.filter(p)] *)
Definition filter (p : A -> bool) (a : ref) : Op ref :=
  fun h =>
    match h !! a with
    | Some l => alloc (List.filter p l) h
    | None => None
    end.

(** [a.sort(comparefn)] *)
Definition sort (comparefn : A -> A -> JS.number) (a : ref) : Op ref :=
  fun h =>
    match h !! a with
    | Some l => Some (a, <[a := JS.sort comparefn l]> h)
    | None => None
    end.

(** Method chaining: the next call is made on the reference returned. *)
Definition andThen {R S} (m : Op R) (k : R -> Op S) : Op S :=
  fun h =>
    match m h with
    | Some (r, h') => k r h'
    | None => None
    end.

End Arrays.

End JSArray.

(* ===================================================================== *)
(** ** SelectionScreen *)
(* ===================================================================== *)

Module SelectionScreen.

(** An entry of the catalogue; [popular] and [placeholder] are absent
    ([None], [undefined]) on some entries. *)
Record Lettuce : Type := mkLettuce {
  id : string;
  name : string;
  image : string;
  popular : option bool;
  placeholder : option bool
}.

Definition romaine : Lettuce :=
  mkLettuce "1" "Romaine" "../assets/lettuce_romaine.png" (Some true) None.
Definition butterhead : Lettuce :=
  mkLettuce "2" "Butterhead" "../assets/lettuce_butterhead.png"
    (Some false) None.
Definition oakLeaf : Lettuce :=
  mkLettuce "3" "Oak Leaf" "../assets/lettuce_oakleaf.png" (Some true) None.
Definition cos : Lettuce :=
  mkLettuce "4" "Cos" "../assets/lettuce_cos.png" (Some false) None.
Definition comingSoon5 : Lettuce :=
  mkLettuce "5" "Coming Soon" "../assets/coming.png" None (Some true).
Definition comingSoon6 : Lettuce :=
  mkLettuce "6" "Coming Soon" "../assets/coming1.png" None (Some true).

(** The static catalogue. *)
Definition originalLettuces : list Lettuce :=
  [romaine; butterhead; oakLeaf; cos; comingSoon5; comingSoon6].

(** The state of the screen: search text and filter mode
    (['all' | 'az' | 'popular']). *)
Record State : Type := mkState {
  searchQuery : string;
  filter : string
}.

Definition initialState : State := {| searchQuery := ""; filter := "all" |}.

(** The predicate given to [filter]. *)
Definition matchesQuery (searchQuery : string) (item : Lettuce) : bool :=
  JS.includes (JS.toLowerCase (name item)) (JS.toLowerCase searchQuery).

(** The comparator given to [sort]. *)
Definition compareItems (filter : string) (a b : Lettuce) : JS.number :=
  if String.eqb filter "az" then JS.Num (JS.localeCompare (name a) (name b))
  else if String.eqb filter "popular"
       then JS.sub (JS.toNumber (popular b)) (JS.toNumber (popular a))
  else JS.Num 0.

(** The elements of [filteredLettuces] for a catalogue [catalog]. *)
Definition filteredLettuces (catalog : list Lettuce) (st : State)
  : list Lettuce :=
  JS.sort (compareItems (filter st))
    (List.filter (matchesQuery (searchQuery st)) catalog).

(** The same expression on the heap: [catalog] is the reference held by the
    constant [originalLettuces]. *)
Definition renderFilteredLettuces (catalog : JSArray.ref) (st : State)
  : JSArray.Op JSArray.ref :=
  JSArray.andThen
    (JSArray.filter (matchesQuery (searchQuery st)) catalog)
    (JSArray.sort (compareItems (filter st))).

(** [handleFilterPress]: the next mode is stored by [setFilter]. (The call
    to [LayoutAnimation.configureNext] only animates the next layout.) *)
Definition handleFilterPress (st : State) : State :=
  let next :=
    if String.eqb (filter st) "all" then "az"
    else if String.eqb (filter st) "az" then "popular"
    else "all" in
  {| searchQuery := searchQuery st; filter := next |}.

(** [onChangeText={setSearchQuery}] *)
Definition setSearchQuery (q : string) (st : State) : State :=
  {| searchQuery := q; filter := filter st |}.

(** Entries flagged [popular: true], and entries flagged [popular: false]. *)
Definition isPopular (item : Lettuce) : bool :=
  match popular item with
  | Some true => true
  | _ => false
  end.

Definition isUnpopular (item : Lettuce) : bool :=
  match popular item with
  | Some false => true
  | _ => false
  end.

(** The heap of the module at load time: the constant [originalLettuces]
    holds the only array. *)
Definition originalLettucesRef : JSArray.ref := 1%positive.

Definition initialHeap : gmap positive (list Lettuce) :=
  {[ originalLettucesRef := originalLettuces ]}.

End SelectionScreen.

(* ===================================================================== *)
(** ** Component state: [useState] *)
(* ===================================================================== *)

Module React.

(** The argument of a state setter: the next value, or a function of the
    value current when the update is applied. *)
Inductive SetStateAction (A : Type) : Type :=
  | Value (a : A)
  | Updater (f : A -> A).
Arguments Value {A} a.
Arguments Updater {A} f.

Definition applyAction {A} (act : SetStateAction A) (current : A) : A :=
  match act with
  | Value a => a
  | Updater f => f current
  end.

(** A [Switch] showing [value] that the user flips reports the new value to
    [onValueChange]. *)
Definition Switch_flip {S} (value : bool) (onValueChange : bool -> S -> S)
  : S -> S :=
  onValueChange (negb value).

End React.

(* ===================================================================== *)
(** ** ProfileScreen *)
(* ===================================================================== *)

Module ProfileScreen.
Import React.

Record State : Type := mkState {
  user : string;
  mail : string;
  pass : string;
  agreeEthics : bool;
  notificationsEnabled : bool
}.

(** The state at mount, for the user name and e-mail address found in the
    route or the context. *)
Definition initialState (username email : string) : State :=
  {| user := username; mail := email; pass := "";
     agreeEthics := false; notificationsEnabled := false |}.

Definition setAgreeEthics (act : SetStateAction bool) (st : State) : State :=
  {| user := user st; mail := mail st; pass := pass st;
     agreeEthics := applyAction act (agreeEthics st);
     notificationsEnabled := notificationsEnabled st |}.

Definition setNotificationsEnabled (act : SetStateAction bool) (st : State)
  : State :=
  {| user := user st; mail := mail st; pass := pass st;
     agreeEthics := agreeEthics st;
     notificationsEnabled := applyAction act (notificationsEnabled st) |}.

(** The ethics toggle of the render of [st] is activated: in the browser a
    [Pressable] with [onPress={() => setAgreeEthics(!agreeEthics)}], on the
    other platforms a [Switch] with [onValueChange={setAgreeEthics}]. *)
Definition toggleAgreeEthics (os : string) (st : State) : State :=
  if String.eqb os "web"
  then setAgreeEthics (Value (negb (agreeEthics st))) st
  else Switch_flip (agreeEthics st) (fun v => setAgreeEthics (Value v)) st.

(** The notifications toggle, built the same way. *)
Definition toggleNotificationsEnabled (os : string) (st : State) : State :=
  if String.eqb os "web"
  then setNotificationsEnabled (Value (negb (notificationsEnabled st))) st
  else Switch_flip (notificationsEnabled st)
         (fun v => setNotificationsEnabled (Value v)) st.

End ProfileScreen.

(* ===================================================================== *)
(** ** InsightsScreen *)
(* ===================================================================== *)

Module InsightsScreen.
Import React.

(** The six metrics of the screen; each has a detail modal with a tooltip. *)
Inductive Metric : Type :=
  | Temp | Humidity | Ph | TDS | Light | Water.

(** The visibility flags: [showTempModal], ..., [showTempTooltip], ... *)
Inductive Flag : Type :=
  | ShowModal (m : Metric)
  | ShowTooltip (m : Metric).

Definition Metric_eqb (a b : Metric) : bool :=
  match a, b with
  | Temp, Temp | Humidity, Humidity | Ph, Ph
  | TDS, TDS | Light, Light | Water, Water => true
  | _, _ => false
  end.

Definition Flag_eqb (a b : Flag) : bool :=
  match a, b with
  | ShowModal m, ShowModal n => Metric_eqb m n
  | ShowTooltip m, ShowTooltip n => Metric_eqb m n
  | _, _ => false
  end.

(** The value of every visibility flag. *)
Definition State : Type := Flag -> bool.

(** Every flag starts from [useState(false)]. *)
Definition initialState : State := fun _ => false.

(** The setter of the flag [f]. *)
Definition setFlag (f : Flag) (act : SetStateAction bool) (st : State)
  : State :=
  fun g => if Flag_eqb f g then applyAction act (st f) else st g.

(** [setShowPhTooltip(!showPhTooltip)] by the render of [st], for the
    tooltip of the modal of [m]: the setter of the tooltip flag is given
    the negation of the value rendered. *)
Definition toggleTooltip (m : Metric) (st : State) : State :=
  setFlag (ShowTooltip m) (Value (negb (st (ShowTooltip m)))) st.

(** [onPress] of the information icon in the modal of [m], as built by the
    render of [st]: nothing in the browser; elsewhere
    [setShowPhTooltip(!showPhTooltip)], and for the water modal
    [setShowWaterTooltip?.(prev => !prev)]. *)
Definition onPressInfo (os : string) (m : Metric) (st : State) : State :=
  if negb (String.eqb os "web") then
    match m with
    | Water => setFlag (ShowTooltip Water) (Updater negb) st
    | _ => toggleTooltip m st
    end
  else st.

(** [onMouseEnter] and [onMouseLeave] of the same icon: only the browser
    shows and hides the tooltip on hover. *)
Definition onMouseEnter (os : string) (m : Metric) (st : State) : State :=
  if String.eqb os "web" then setFlag (ShowTooltip m) (Value true) st
  else st.

Definition onMouseLeave (os : string) (m : Metric) (st : State) : State :=
  if String.eqb os "web" then setFlag (ShowTooltip m) (Value false) st
  else st.

(** A sensor card is pressed ([setShowPhModal(true)]); the modal asks to be
    closed ([setShowPhModal(false)]). *)
Definition openModal (m : Metric) (st : State) : State :=
  setFlag (ShowModal m) (Value true) st.

Definition closeModal (m : Metric) (st : State) : State :=
  setFlag (ShowModal m) (Value false) st.

End InsightsScreen.

(* ===================================================================== *)
(** ** The operators [||] and [??] on optional strings *)
(* ===================================================================== *)

(** A value that is a string, or [undefined] / [null] ([None]). *)
Module JSOps.

(** [a || b] with [b] optional too: [a] when it is truthy, else [b]. *)
Definition orOpt (a b : option string) : option string :=
  match a with
  | Some s => if JS.truthy s then a else b
  | None => b
  end.

(** [a || b] with a string [b]. *)
Definition orElse (a : option string) (b : string) : string :=
  match a with
  | Some s => if JS.truthy s then s else b
  | None => b
  end.

(** [a ?? b] with [b] optional too: [a] unless it is [undefined] or
    [null]. *)
Definition nullishOpt (a b : option string) : option string :=
  match a with
  | Some _ => a
  | None => b
  end.

(** [a ?? b] with a string [b]. *)
Definition nullish (a : option string) (b : string) : string :=
  match a with
  | Some s => s
  | None => b
  end.

End JSOps.

(* ===================================================================== *)
(** ** The form of SignUpScreen and its check box *)
(* ===================================================================== *)

Module SignUpComponent.
Import SignUpScreen.

(** The state at mount: three empty fields, the box not ticked. *)
Definition initialForm : Form :=
  {| username := ""; email := ""; password := ""; agree := false |}.

Definition setUsername (v : string) (f : Form) : Form :=
  {| username := v; email := email f; password := password f;
     agree := agree f |}.

Definition setEmail (v : string) (f : Form) : Form :=
  {| username := username f; email := v; password := password f;
     agree := agree f |}.

Definition setPassword (v : string) (f : Form) : Form :=
  {| username := username f; email := email f; password := v;
     agree := agree f |}.

Definition setAgree (v : bool) (f : Form) : Form :=
  {| username := username f; email := email f; password := password f;
     agree := v |}.

(** [CustomCheckBox]: [onPress={() => onValueChange(!value)}]. *)
Definition CustomCheckBox_onPress {S} (value : bool)
    (onValueChange : bool -> S -> S) : S -> S :=
  onValueChange (negb value).

(** The check box of the render of [f],
    [<CustomCheckBox value={agree} onValueChange={setAgree} />], is
    pressed. *)
Definition pressAgree (f : Form) : Form :=
  CustomCheckBox_onPress (agree f) setAgree f.

(** The three checks of [handleSignUp], as one boolean. *)
Definition passesChecks (f : Form) : bool :=
  JS.truthy (username f) && JS.truthy (email f) && JS.truthy (password f)
  && RegExp.test emailRegex (email f) && agree f.

(** Occurrences of the code unit [c] in [s]. *)
Fixpoint countChar (c : ascii) (s : string) : nat :=
  match s with
  | EmptyString => 0
  | String x s' => (if Ascii.eqb x c then 1 else 0) + countChar c s'
  end.

End SignUpComponent.

(* ===================================================================== *)
(** ** Repeated login attempts *)
(* ===================================================================== *)

Module LoginSession.
Import App LoginScreen.

(** The login button is pressed once for each pair (user name, password),
    in order. *)
Definition loginAll (os : string) (attempts : list (string * string))
    (w : World) : World :=
  fold_left (fun w' a => exec (handleLogin os (fst a) (snd a)) w')
    attempts w.

(** An attempt that passes the check of [handleLogin]. *)
Definition accepted (a : string * string) : bool :=
  JS.truthy (fst a) && JS.truthy (snd a).

(** The user name of the last accepted attempt, if there is one. *)
Definition lastAccepted (attempts : list (string * string))
  : option string :=
  fold_left (fun acc a => if accepted a then Some (fst a) else acc)
    attempts None.

End LoginSession.

(* ===================================================================== *)
(** ** Readers of the session *)
(* ===================================================================== *)

Module Greeting.
Import JSOps.

(** TopNavbar on the platform [os]: nothing in the browser
    ([Platform.OS === 'web' ? null : ...]), elsewhere the text
    [`Hi ${username ?? ''}`] for the [username] of [UserContext]. *)
Definition topNavbarGreeting (os : string) (contextUsername : option string)
  : option string :=
  if String.eqb os "web" then None
  else Some ("Hi " ++ nullish contextUsername "")%string.

(** ProfileScreen at mount: [routeUsername || contextUsername || ''] and
    [routeEmail || ''] fill the form. *)
Definition mountProfile (routeUsername routeEmail contextUsername
    : option string) : ProfileScreen.State :=
  ProfileScreen.initialState
    (orElse (orOpt routeUsername contextUsername) "")
    (orElse routeEmail "").

End Greeting.

(* ===================================================================== *)
(** ** WebNavbar *)
(* ===================================================================== *)

Module WebNavbar.
Import JSOps.

Record NavItem : Type := mkNavItem {
  label : string;
  route : string
}.

Definition NAV_ITEMS : list NavItem :=
  [ mkNavItem "Home" "DashboardMain";
    mkNavItem "Search" "Search";
    mkNavItem "Insights" "Insights";
    mkNavItem "Profile" "Profile";
    mkNavItem "Logout" "Icon" ].

(** [paramUsername ?? contextUsername ?? 'User'] *)
Definition displayUsername (paramUsername contextUsername : option string)
  : string :=
  nullish (nullishOpt paramUsername contextUsername) "User".

(** A call [navigation.navigate(name)] or
    [navigation.navigate(name, { username })]. *)
Record Navigation : Type := mkNavigation {
  target : string;
  usernameParam : option string
}.

(** [onPress] of the button of [item], for the name on display. *)
Definition onPressItem (item : NavItem) (displayUsername : string)
  : Navigation :=
  if String.eqb (label item) "Logout"
  then {| target := route item; usernameParam := None |}
  else {| target := route item; usernameParam := Some displayUsername |}.

(** Whether the button of [item] gets the active style on the route
    [routeName]. *)
Definition isActive (item : NavItem) (routeName : string) : bool :=
  (String.eqb (route item) "Home" && String.eqb routeName "DashboardMain")
  || String.eqb (JS.toLowerCase routeName) (JS.toLowerCase (route item)).

(** The navbar is rendered in the browser only. *)
Definition rendered (os : string) : bool := String.eqb os "web".

(** The text [Hi {displayUsername}] of the navbar on the platform [os]:
    nothing outside the browser ([if (Platform.OS !== 'web') return
    null]). *)
Definition greeting (os : string) (paramUsername contextUsername
    : option string) : option string :=
  if rendered os
  then Some ("Hi " ++ displayUsername paramUsername contextUsername)%string
  else None.

End WebNavbar.

(* ===================================================================== *)
(** ** The cards of SelectionScreen and the detail screen *)
(* ===================================================================== *)

Module LettuceCards.
Import App SelectionScreen.

(** What pressing a card does: a notification, or
    [navigation.navigate('LettuceDetail', { lettuce })]. Of the object
    [lettuce] the detail screen reads [name] and [image]; its other fields
    are the same constants for every card. *)
Inductive CardAction : Type :=
  | Notify (n : Notice)
  | OpenDetail (name image : string).

(** The truth value of [item.placeholder]. *)
Definition isPlaceholder (item : Lettuce) : bool :=
  match placeholder item with
  | Some b => b
  | None => false
  end.

(** [onPress] of the card that [renderItem] builds for [item]. *)
Definition onPressCard (os : string) (item : Lettuce) : CardAction :=
  if isPlaceholder item then
    if String.eqb os "web"
    then Notify (WindowAlert "This lettuce type is coming soon! Stay tuned.")
    else Notify (NativeAlert "Notice"
                   "This lettuce type is coming soon! Stay tuned." [])
  else OpenDetail (name item) (image item).

(** The scientific facts of a variety. *)
Record Facts : Type := mkFacts {
  scientificName : string;
  family : string;
  difficulty : string
}.

(** LettuceDetailScreen and LettuceModal: the subtitle under the name. *)
Definition subtitle (name : string) : option string :=
  if String.eqb name "Romaine" then
    Some "A crunchy and upright variety commonly used in Caesar salads."
  else if String.eqb name "Butterhead" then
    Some "Soft, tender leaves with a buttery texture. Great for wraps and fresh salads."
  else if String.eqb name "Oak Leaf" then
    Some "Distinctive lobed leaves and mild flavor make it perfect for delicate salads."
  else if String.eqb name "Cos" then
    Some "Crisp texture and tall heads, often confused with Romaine but slightly sweeter."
  else None.

(** The block of scientific name, family and difficulty. *)
Definition facts (name : string) : option Facts :=
  if String.eqb name "Butterhead" then
    Some (mkFacts "Lactuca sativa var. capitata" "Asteraceae" "Easy")
  else if String.eqb name "Romaine" then
    Some (mkFacts "Lactuca sativa var. longifolia" "Asteraceae" "Moderate")
  else if String.eqb name "Oak Leaf" then
    Some (mkFacts "Lactuca sativa var. crispa" "Asteraceae" "Easy")
  else if String.eqb name "Cos" then
    Some (mkFacts "Lactuca sativa var. longifolia" "Asteraceae" "Moderate")
  else None.

(** The labels of the buttons under the facts: "Lettuce added!" always,
    and "Coming Soon" for the name 'Coming Soon'. *)
Definition buttons (name : string) : list string :=
  "Lettuce added!"
  :: (if String.eqb name "Coming Soon" then ["Coming Soon"] else []).

End LettuceCards.

(* ===================================================================== *)
(** ** Controls of the insight modals *)
(* ===================================================================== *)

Module InsightsControls.

(** The position of the water slider for [humidityPref]. *)
Definition sliderValue (humidityPref : string) : Z :=
  if String.eqb humidityPref "Low" then 0
  else if String.eqb humidityPref "Medium" then 1
  else 2.

(** [onValueChange] of the slider: the preference stored for a position. *)
Definition prefOfValue (value : Z) : string :=
  if (value =? 0)%Z then "Low"
  else if (value =? 1)%Z then "Medium"
  else "High".

(** The text after "Current Water:". *)
Definition waterLabel (humidityPref : string) : string :=
  if String.eqb humidityPref "Low" then "5.0 L"
  else if String.eqb humidityPref "Medium" then "6.5 L"
  else "8.0 L".

(** The stages of [AverageGrowthCard]: label and abbreviation. *)
Definition stages : list (string * string) :=
  [ ("Germination", "Germ."); ("Seedling", "Seedl.");
    ("Vegetative", "Veg."); ("Maturation", "Matur.") ].

(** The status of the stage at index [idx] when the card is given
    [currentStage]. *)
Definition isCompleted (currentStage idx : Z) : bool := (idx <? currentStage)%Z.
Definition isCurrent (currentStage idx : Z) : bool := (idx =? currentStage)%Z.
Definition isUpcoming (currentStage idx : Z) : bool := (idx >? currentStage)%Z.

(** The circle of a stage is green when the stage is completed or
    current. *)
Definition circleGreen (currentStage idx : Z) : bool :=
  isCompleted currentStage idx || isCurrent currentStage idx.

(** [stages[currentStage]?.label]: [undefined] outside the array. *)
Definition stageLabel (currentStage : Z) : option string :=
  if (currentStage <? 0)%Z then None
  else option_map fst (nth_error stages (Z.to_nat currentStage)).

(** The indices [stages.map] goes through. *)
Definition stageIndices : list Z :=
  map Z.of_nat (seq 0 (List.length stages)).

End InsightsControls.

(* ===================================================================== *)
(** ** Names the collation model covers *)
(* ===================================================================== *)

Module Collation.



End Collation.

(* ===================================================================== *)
(** ** Render after render *)
(* ===================================================================== *)

Module RenderLoop.
Import SelectionScreen.

(** The screen is rendered once for each state of [sts], in order; every
    render evaluates [filteredLettuces] on the heap. The result lists the
    arrays handed to the grid. *)
Fixpoint renderAll (catalog : JSArray.ref) (sts : list State)
  : JSArray.Op (A := Lettuce) (list JSArray.ref) :=
  match sts with
  | [] => fun h => Some ([], h)
  | st :: rest =>
      JSArray.andThen (renderFilteredLettuces catalog st) (fun r =>
      JSArray.andThen (renderAll catalog rest) (fun rs =>
      fun h => Some (r :: rs, h)))
  end.

End RenderLoop.

(* ===================================================================== *)
(** ** Logging out *)
(* ===================================================================== *)

Module Logout.
Import App.

(** [navigation.navigate(name)] without parameters. The route is recorded
    with an empty user name, like the first route of [initialWorld]. *)
Definition navigateTo (name : string) : M unit := navigate name "".

(** TopNavbar: [onPress={() => navigation.navigate('Icon')}] of the logout
    button. *)
Definition topNavbarLogout : M unit := navigateTo "Icon".

(** WebNavbar: the navigation of [onPressItem] carried out. *)
Definition webNavbarPress (item : WebNavbar.NavItem) (shown : string)
  : M unit :=
  let nav := WebNavbar.onPressItem item shown in
  match WebNavbar.usernameParam nav with
  | Some u => navigate (WebNavbar.target nav) u
  | None => navigateTo (WebNavbar.target nav)
  end.

(** The item Logout of [NAV_ITEMS]. *)
Definition logoutItem : WebNavbar.NavItem :=
  WebNavbar.mkNavItem "Logout" "Icon".

(** The logout control that the platform [os] renders is pressed: the item
    Logout of the web navbar in the browser, the logout button of the top
    navbar elsewhere. [shown] is the name the web navbar displays. *)
Definition logout (os shown : string) : M unit :=
  if String.eqb os "web" then webNavbarPress logoutItem shown
  else topNavbarLogout.

End Logout.

(* ===================================================================== *)
(** ** Facts about strings and regular expressions *)
(* ===================================================================== *)

Module RegExpFacts.
Import RegExp.

Lemma append_nil_l (s : string) : ("" ++ s)%string = s.
Proof. reflexivity. Qed.

Lemma append_cons (c : ascii) (s t : string) :
  (String c s ++ t)%string = String c (s ++ t)%string.
Proof. reflexivity. Qed.

Lemma append_nil_r (s : string) : (s ++ "")%string = s.
Proof.
  induction s as [|c s IH]; [reflexivity | now rewrite append_cons, IH].
Qed.

Lemma append_assoc (s1 s2 s3 : string) :
  ((s1 ++ s2) ++ s3)%string = (s1 ++ (s2 ++ s3))%string.
Proof.
  induction s1 as [|c s1 IH]; [reflexivity | now rewrite !append_cons, IH].
Qed.

Lemma append_eq_nil (s1 s2 : string) :
  (s1 ++ s2)%string = "" -> s1 = "" /\ s2 = "".
Proof.
  destruct s1; intros H; [now split | rewrite append_cons in H; discriminate].
Qed.

(** A word that starts with [c] and is split in two: either the first half
    is empty or it starts with [c]. *)
Lemma append_eq_cons (s1 s2 : string) (c : ascii) (s : string) :
  (s1 ++ s2)%string = String c s ->
  (s1 = "" /\ s2 = String c s)
  \/ exists s1', s1 = String c s1' /\ s = (s1' ++ s2)%string.
Proof.
  destruct s1 as [|c' s1']; intros H.
  - left. now split.
  - right. rewrite append_cons in H. injection H as -> <-. now exists s1'.
Qed.

Lemma nullable_lang (r : regex) : nullable r = true <-> lang r "".
Proof.
  split.
  - induction r; simpl; intros H; try discriminate.
    + constructor.
    + apply andb_true_iff in H as [H1 H2].
      change "" with ("" ++ "")%string. constructor; auto.
    + apply orb_true_iff in H as [H | H];
        [apply lang_alt_l | apply lang_alt_r]; auto.
    + constructor.
  - intros H. remember "" as s eqn:E.
    induction H; simpl; try reflexivity; try discriminate.
    + apply append_eq_nil in E as [-> ->].
      now rewrite IHlang1, IHlang2.
    + now rewrite IHlang.
    + rewrite IHlang by assumption. apply orb_true_r.
Qed.

Lemma deriv_sound (c : ascii) (r : regex) (s : string) :
  lang (deriv c r) s -> lang r (String c s).
Proof.
  revert s. induction r; simpl; intros s H.
  - inversion H.
  - inversion H.
  - destruct (p c) eqn:Hp; inversion H; subst. now constructor.
  - assert (Hcat : forall w, lang (Cat (deriv c r1) r2) w ->
                             lang (Cat r1 r2) (String c w)).
    { intros w Hw. inversion Hw; subst.
      change (String c (s1 ++ s2)%string) with (String c s1 ++ s2)%string.
      constructor; auto. }
    destruct (nullable r1) eqn:Hn.
    + inversion H; subst.
      * now apply Hcat.
      * change (String c s) with ("" ++ String c s)%string.
        constructor; [now apply nullable_lang | auto].
    + now apply Hcat.
  - inversion H; subst; [apply lang_alt_l | apply lang_alt_r]; auto.
  - inversion H; subst.
    change (String c (s1 ++ s2)%string) with (String c s1 ++ s2)%string.
    apply lang_star_cons; auto.
Qed.

Lemma deriv_complete (c : ascii) (r : regex) (s : string) :
  lang r (String c s) -> lang (deriv c r) s.
Proof.
  intros H. remember (String c s) as w eqn:E. revert c s E.
  induction H; intros c0 s0 E; simpl; try discriminate.
  - injection E as -> <-. rewrite H. constructor.
  - apply append_eq_cons in E as [[-> ->] | (s1' & -> & ->)].
    + apply nullable_lang in H as ->.
      apply lang_alt_r. now apply IHlang2.
    + assert (Hc : lang (Cat (deriv c0 r1) r2) (s1' ++ s2)%string)
        by (constructor; auto).
      destruct (nullable r1); [now apply lang_alt_l | assumption].
  - apply lang_alt_l. now apply IHlang.
  - apply lang_alt_r. now apply IHlang.
  - apply append_eq_cons in E as [[-> ->] | (s1' & -> & ->)].
    + now apply IHlang2.
    + constructor; auto.
Qed.

(** The matcher decides membership in the language. *)
Lemma test_lang (r : regex) (s : string) : test r s = true <-> lang r s.
Proof.
  revert r. induction s as [|c s IH]; intros r; simpl.
  - apply nullable_lang.
  - rewrite IH. split; [apply deriv_sound | apply deriv_complete].
Qed.

Lemma lang_cat_inv (r1 r2 : regex) (s : string) :
  lang (Cat r1 r2) s <->
  exists s1 s2, s = (s1 ++ s2)%string /\ lang r1 s1 /\ lang r2 s2.
Proof.
  split.
  - intros H. inversion H; subst. eauto.
  - intros (s1 & s2 & -> & H1 & H2). now constructor.
Qed.

Lemma lang_class_inv (p : ascii -> bool) (s : string) :
  lang (Class p) s <-> exists c, s = String c "" /\ p c = true.
Proof.
  split.
  - intros H. inversion H; subst. eauto.
  - intros (c & -> & Hc). now constructor.
Qed.

End RegExpFacts.

(* ===================================================================== *)
(** ** Sign-up *)
(* ===================================================================== *)

Module SignUpFacts.
Import App SignUpScreen RegExp RegExpFacts.

Lemma truthy_nonempty (s : string) : JS.truthy s = true <-> s <> "".
Proof. destruct s; simpl; split; intros; congruence. Qed.

Lemma truthy_empty (s : string) : JS.truthy s = false <-> s = "".
Proof. destruct s; simpl; split; intros; congruence. Qed.

Lemma lang_star_class (p : ascii -> bool) (s : string) :
  lang (Star (Class p)) s <-> allChars p s = true.
Proof.
  split.
  - intros H. remember (Star (Class p)) as r eqn:E.
    induction H; try discriminate; [reflexivity |].
    injection E as ->. apply lang_class_inv in H as (c & -> & Hc).
    rewrite append_cons, append_nil_l. simpl.
    now rewrite Hc, IHlang2.
  - induction s as [|c s IH]; simpl; intros H.
    + constructor.
    + apply andb_true_iff in H as [Hc Hs].
      change (String c s) with (String c "" ++ s)%string.
      apply lang_star_cons; [now constructor | auto].
Qed.

Lemma lang_plus_class (p : ascii -> bool) (s : string) :
  lang (Plus (Class p)) s <-> s <> "" /\ allChars p s = true.
Proof.
  unfold Plus. rewrite lang_cat_inv. split.
  - intros (s1 & s2 & -> & H1 & H2).
    apply lang_class_inv in H1 as (c & -> & Hc).
    apply lang_star_class in H2. rewrite append_cons, append_nil_l.
    simpl. rewrite Hc, H2. now split.
  - intros [Hne H]. destruct s as [|c s]; [congruence |].
    simpl in H. apply andb_true_iff in H as [Hc Hs].
    exists (String c ""), s. repeat split.
    + now constructor.
    + now apply lang_star_class.
Qed.

Lemma isAt_spec (c : ascii) : isAt c = true <-> c = "@"%char.
Proof. apply Ascii.eqb_eq. Qed.

Lemma isDot_spec (c : ascii) : isDot c = true <-> c = "."%char.
Proof. apply Ascii.eqb_eq. Qed.

(** The regular expression of [handleSignUp] accepts exactly the addresses
    of the shape [localpart@domain.tld]. *)
Lemma emailRegex_shape (s : string) :
  test emailRegex s = true <-> emailShape s.
Proof.
  rewrite test_lang. unfold emailRegex, emailShape, part. split.
  - intros H.
    apply lang_cat_inv in H as (l & s1 & -> & Hl & H).
    apply lang_cat_inv in H as (a & s2 & -> & Ha & H).
    apply lang_cat_inv in H as (d & s3 & -> & Hd & H).
    apply lang_cat_inv in H as (o & t & -> & Ho & Ht).
    apply lang_class_inv in Ha as (ca & -> & Hca).
    apply lang_class_inv in Ho as (co & -> & Hco).
    apply isAt_spec in Hca as ->. apply isDot_spec in Hco as ->.
    apply lang_plus_class in Hl, Hd, Ht.
    exists l, d, t. auto.
  - intros (l & d & t & -> & Hl & Hd & Ht).
    apply lang_plus_class in Hl, Hd, Ht.
    repeat (apply lang_cat_inv; eexists; eexists;
            split; [reflexivity | split]); try assumption.
    + now constructor.
    + now constructor.
Qed.

End SignUpFacts.

(* ===================================================================== *)
(** ** Sign-up and login: what the handlers do *)
(* ===================================================================== *)

Module AuthFacts.
Import App SignUpScreen LoginScreen RegExp SignUpFacts.

Ltac fields f := destruct f as [u e p a]; simpl in *.

Lemma sampleForm_valid : validForm sampleForm.
Proof.
  unfold validForm, sampleForm; simpl.
  repeat split; try discriminate; reflexivity.
Qed.

Lemma passes_first_check (u e p : string) :
  u <> "" -> e <> "" -> p <> "" ->
  negb (JS.truthy u) || negb (JS.truthy e) || negb (JS.truthy p) = false.
Proof.
  intros Hu He Hp.
  apply truthy_nonempty in Hu, He, Hp. now rewrite Hu, He, Hp.
Qed.

Lemma fails_first_check (u e p : string) :
  u = "" \/ e = "" \/ p = "" ->
  negb (JS.truthy u) || negb (JS.truthy e) || negb (JS.truthy p) = true.
Proof.
  intros [-> | [-> | ->]]; simpl; rewrite ?orb_true_r; reflexivity.
Qed.

(** C1, as the specification words it, fails in the browser: the handler
    navigates to the dashboard but leaves the session user name [null]. *)
Lemma signUp_web_leaves_session_unset :
  validForm sampleForm
  /\ ~ signedUpInDashboard "web" sampleForm initialWorld.
Proof.
  split.
  - exact sampleForm_valid.
  - unfold signedUpInDashboard. vm_compute. intros [H _]. discriminate.
Qed.

(** C1 (amended): a valid sign-up in the browser shows the success message
    and gives the focus to the dashboard with the submitted user name as
    route parameter, the session user name staying as it was; on every
    other platform it stores the submitted user name in the session and
    shows the "Signed Up" alert, whose OK button gives the focus to the
    dashboard with that user name. *)
Theorem signUp_valid (os : string) (f : Form) (w : World) :
  validForm f ->
  let w' := exec (handleSignUp os f) w in
  (os = "web" ->
     w' = {| contextUsername := contextUsername w;
             routes := dashboard (username f) :: routes w;
             notices := notices w
                        ++ [WindowAlert "You have successfully signed up!"];
             console := console w |})
  /\ (os <> "web" ->
        w' = {| contextUsername := Some (username f);
                routes := routes w;
                notices := notices w
                           ++ [NativeAlert "Signed Up"
                                 "You have successfully signed up!"
                                 [okButton (username f)]];
                console := console w |}
        /\ let w'' := exec (press (okButton (username f))) w' in
           contextUsername w'' = Some (username f)
           /\ focused w'' = Some (dashboard (username f))).
Proof.
  intros (Hu & He & Hp & Hre & Ha). fields f.
  unfold handleSignUp; simpl.
  rewrite (passes_first_check _ _ _ Hu He Hp), Hre, Ha. simpl.
  split; intros Hos.
  - subst os. reflexivity.
  - apply String.eqb_neq in Hos. rewrite Hos. now repeat split.
Qed.

Lemma signUp_valid_witness :
  contextUsername (exec (handleSignUp "ios" sampleForm) initialWorld)
  = Some "alice"
  /\ focused (exec (handleSignUp "web" sampleForm) initialWorld)
     = Some (dashboard "alice").
Proof.
  assert (Hv : validForm sampleForm).
  { unfold validForm, sampleForm; simpl.
    repeat split; try discriminate; reflexivity. }
  split.
  - destruct (signUp_valid "ios" sampleForm initialWorld Hv) as [_ Hn].
    destruct Hn as [-> _]; [discriminate | reflexivity].
  - destruct (signUp_valid "web" sampleForm initialWorld Hv) as [Hw _].
    rewrite Hw; reflexivity.
Defined.

(** C2: when the user name, the e-mail address or the password is empty,
    sign-up fails with [MissingField]: that notification alone is shown,
    and session, navigation and console stay as they were. *)
Theorem signUp_missing_field (os : string) (f : Form) (w : World) :
  username f = "" \/ email f = "" \/ password f = "" ->
  failsWith os MissingField w (exec (handleSignUp os f) w).
Proof.
  intros H. fields f. unfold handleSignUp, failsWith; simpl.
  rewrite (fails_first_check _ _ _ H).
  destruct (String.eqb os "web"); now repeat split.
Qed.

Lemma signUp_missing_field_witness :
  failsWith "android" MissingField initialWorld
    (exec (handleSignUp "android"
             {| username := "alice"; email := ""; password := "secret";
                agree := true |}) initialWorld).
Proof.
  apply signUp_missing_field. simpl. right. left. reflexivity.
Defined.

(** C3: with the three fields filled in, an e-mail address that is not of
    the shape [localpart@domain.tld] makes sign-up fail with
    [InvalidEmail], the session user name untouched. *)
Theorem signUp_invalid_email (os : string) (f : Form) (w : World) :
  username f <> "" -> email f <> "" -> password f <> "" ->
  ~ emailShape (email f) ->
  failsWith os InvalidEmail w (exec (handleSignUp os f) w).
Proof.
  intros Hu He Hp Hshape. fields f. unfold handleSignUp, failsWith; simpl.
  rewrite (passes_first_check _ _ _ Hu He Hp).
  destruct (test emailRegex e) eqn:Hre.
  - exfalso. apply Hshape. now apply emailRegex_shape.
  - simpl. destruct (String.eqb os "web"); now repeat split.
Qed.

Lemma signUp_invalid_email_witness :
  failsWith "web" InvalidEmail initialWorld
    (exec (handleSignUp "web"
             {| username := "alice"; email := "alice@example";
                password := "secret"; agree := true |}) initialWorld).
Proof.
  apply signUp_invalid_email; simpl; try discriminate.
  intros H. apply emailRegex_shape in H. vm_compute in H. discriminate.
Defined.

(** C4: with the three fields filled in and a well-formed e-mail address,
    an unticked terms box makes sign-up fail with [TermsNotAccepted], the
    session user name untouched. *)
Theorem signUp_terms_not_accepted (os : string) (f : Form) (w : World) :
  username f <> "" -> email f <> "" -> password f <> "" ->
  test emailRegex (email f) = true ->
  agree f = false ->
  failsWith os TermsNotAccepted w (exec (handleSignUp os f) w).
Proof.
  intros Hu He Hp Hre Ha. fields f. unfold handleSignUp, failsWith; simpl.
  rewrite (passes_first_check _ _ _ Hu He Hp), Hre, Ha. simpl.
  destruct (String.eqb os "web"); now repeat split.
Qed.

Lemma signUp_terms_not_accepted_witness :
  failsWith "ios" TermsNotAccepted initialWorld
    (exec (handleSignUp "ios"
             {| username := "alice"; email := "alice@example.com";
                password := "secret"; agree := false |}) initialWorld).
Proof.
  apply signUp_terms_not_accepted; simpl; try discriminate; reflexivity.
Defined.

(** C5: login with a non-empty user name and password shows no error,
    stores the submitted user name in the session and resets the navigation
    to the dashboard; with an empty user name or password it shows the
    "Login Error" notification and leaves session and navigation as they
    were. *)
Theorem login_contract (os u p : string) (w : World) :
  let w' := exec (handleLogin os u p) w in
  (u <> "" -> p <> "" ->
     contextUsername w' = Some u
     /\ notices w' = notices w
     /\ routes w' = [dashboard u])
  /\ (u = "" \/ p = "" ->
        contextUsername w' = contextUsername w
        /\ notices w' = notices w ++ [loginErrorNotice os]
        /\ routes w' = routes w).
Proof.
  unfold handleLogin. split.
  - intros Hu Hp. apply truthy_nonempty in Hu, Hp. rewrite Hu, Hp. simpl.
    now repeat split.
  - intros H.
    assert (Hc : negb (JS.truthy u) || negb (JS.truthy p) = true).
    { destruct H as [-> | ->]; simpl; rewrite ?orb_true_r; reflexivity. }
    rewrite Hc. unfold alert, loginErrorNotice.
    destruct (String.eqb os "web"); now repeat split.
Qed.

Lemma login_contract_witness :
  contextUsername (exec (handleLogin "ios" "alice" "secret") initialWorld)
  = Some "alice"
  /\ contextUsername (exec (handleLogin "ios" "alice" "") initialWorld)
     = None.
Proof.
  split.
  - destruct (login_contract "ios" "alice" "secret" initialWorld) as [Hok _].
    destruct Hok as [-> _]; [discriminate | discriminate | reflexivity].
  - destruct (login_contract "ios" "alice" "" initialWorld) as [_ Hko].
    destruct Hko as [-> _]; [right; reflexivity | reflexivity].
Defined.

End AuthFacts.

(* ===================================================================== *)
(** ** The model of [Array.prototype.sort] *)
(* ===================================================================== *)

(** ECMAScript leaves the algorithm open but fixes the result for a
    consistent comparator: a permutation of the input, in order, with the
    elements that compare equal in their original order. The insertion sort
    of [JS.sort] meets the three requirements. *)
Module SortFacts.

Section Comparator.
Context {A : Type}.
Variable comparefn : A -> A -> JS.number.

Local Abbreviation cmp := (JS.sortCompare comparefn).
Local Abbreviation insert := (JS.insert comparefn).
Local Abbreviation sort := (JS.sort comparefn).
Local Abbreviation notAfter := (JS.notAfter comparefn).

Lemma insert_perm (x : A) (l : list A) : Permutation (insert x l) (x :: l).
Proof.
  induction l as [|y l IH]; simpl; [reflexivity |].
  destruct (cmp x y <? 0)%Z; [reflexivity |].
  rewrite IH. apply perm_swap.
Qed.

Lemma fold_insert_perm (l acc : list A) :
  Permutation (fold_left (fun acc x => insert x acc) l acc) (acc ++ l).
Proof.
  revert acc. induction l as [|x l IH]; intros acc; simpl.
  - now rewrite app_nil_r.
  - rewrite IH, insert_perm. apply Permutation_middle.
Qed.

(** The result holds the elements of the array, each as often as before. *)
Lemma sort_perm (l : list A) : Permutation (sort l) l.
Proof. unfold JS.sort. apply (fold_insert_perm l []). Qed.

Lemma sort_nil : sort [] = [].
Proof. reflexivity. Qed.

Lemma sort_singleton (x : A) : sort [x] = [x].
Proof. reflexivity. Qed.

(** A consistent comparator: a total preorder read off the sign. *)
Hypothesis cmp_flip : forall x y, (cmp x y < 0 <-> 0 < cmp y x)%Z.
Hypothesis notAfter_trans :
  forall x y z, notAfter x y -> notAfter y z -> notAfter x z.






(** A class of elements that compare equal with one another. *)
Variable p : A -> bool.
Hypothesis p_equal : forall x y, p x = true -> p y = true -> cmp x y = 0%Z.





End Comparator.

End SortFacts.

(* ===================================================================== *)
(** ** The collation is a consistent comparator *)
(* ===================================================================== *)

Module CollationFacts.

Section Lex.
Variable weight : ascii -> N.

Local Abbreviation lex := (JS.lexCompare weight).







End Lex.




End CollationFacts.

(* ===================================================================== *)
(** ** The catalogue view *)
(* ===================================================================== *)

Module SelectionFacts.
Import SelectionScreen.

(** C6: one activation of the filter button takes 'all' to 'az', 'az' to
    'popular' and 'popular' to 'all', whatever the search text, which it
    leaves alone; three activations from 'all' are back at 'all'. *)
Theorem filter_cycle (q : string) :
  handleFilterPress (mkState q "all") = mkState q "az"
  /\ handleFilterPress (mkState q "az") = mkState q "popular"
  /\ handleFilterPress (mkState q "popular") = mkState q "all"
  /\ handleFilterPress
       (handleFilterPress (handleFilterPress (mkState q "all")))
     = mkState q "all".
Proof. repeat split. Qed.

(** From the state at mount the mode never leaves the three modes. *)
Lemma handleFilterPress_mode (st : State) :
  In (filter (handleFilterPress st)) ["all"; "az"; "popular"].
Proof.
  unfold handleFilterPress; simpl.
  destruct (String.eqb (filter st) "all"); [tauto |].
  destruct (String.eqb (filter st) "az"); tauto.
Qed.

(** Every string includes the empty string. *)
Lemma includes_empty (s : string) : JS.includes s "" = true.
Proof. destruct s; reflexivity. Qed.

Lemma filter_all {A} (p : A -> bool) (l : list A) :
  (forall x, p x = true) -> List.filter p l = l.
Proof.
  intros Hp. induction l as [|x l IH]; simpl; [reflexivity |].
  now rewrite Hp, IH.
Qed.

(** An empty search text keeps the whole catalogue. *)
Lemma empty_query_keeps_all (catalog : list Lettuce) :
  List.filter (matchesQuery "") catalog = catalog.
Proof.
  apply filter_all. intros x. unfold matchesQuery. apply includes_empty.
Qed.


(** The comparator of the mode 'popular' on two flagged entries. *)
Lemma sortCompare_popular (a b : Lettuce) (pa pb : bool) :
  popular a = Some pa -> popular b = Some pb ->
  JS.sortCompare (compareItems "popular") a b = (Z.b2z pb - Z.b2z pa)%Z.
Proof.
  intros Ha Hb. unfold JS.sortCompare, compareItems; simpl.
  rewrite Ha, Hb. now destruct pa, pb.
Qed.

(** In the mode 'popular' an entry flagged popular goes behind the popular
    entries and in front of the others. *)
Lemma insert_popular (x : Lettuce) (T F : list Lettuce) :
  popular x = Some true ->
  Forall (fun y => popular y = Some true) T ->
  Forall (fun y => popular y = Some false) F ->
  JS.insert (compareItems "popular") x (T ++ F) = (T ++ [x]) ++ F.
Proof.
  intros Hx HT HF. induction HT as [|t T Ht HT IH]; simpl.
  - destruct HF as [|y F Hy HF]; simpl; [reflexivity |].
    now rewrite (sortCompare_popular _ _ _ _ Hx Hy).
  - rewrite (sortCompare_popular _ _ _ _ Hx Ht). simpl. now rewrite IH.
Qed.

(** An entry flagged not popular goes to the end. *)
Lemma insert_unpopular (x : Lettuce) (l : list Lettuce) :
  popular x = Some false ->
  Forall (fun y => popular y <> None) l ->
  JS.insert (compareItems "popular") x l = l ++ [x].
Proof.
  intros Hx Hl. induction Hl as [|y l Hy Hl IH]; simpl; [reflexivity |].
  destruct (popular y) as [py|] eqn:Hpy; [| congruence].
  rewrite (sortCompare_popular _ _ _ _ Hx Hpy).
  destruct py; simpl; now rewrite IH.
Qed.

Lemma fold_insert_popular (l T F : list Lettuce) :
  Forall (fun y => popular y <> None) l ->
  Forall (fun y => popular y = Some true) T ->
  Forall (fun y => popular y = Some false) F ->
  fold_left (fun acc x => JS.insert (compareItems "popular") x acc) l (T ++ F)
  = (T ++ List.filter isPopular l) ++ (F ++ List.filter isUnpopular l).
Proof.
  intros Hl. revert T F.
  induction Hl as [|x l Hx Hl IH]; intros T F HT HF; simpl.
  - now rewrite !app_nil_r.
  - unfold isPopular at 1, isUnpopular at 1.
    destruct (popular x) as [[|]|] eqn:Hp; [| | congruence].
    + rewrite insert_popular by assumption.
      rewrite IH; [| apply Forall_app; split; [assumption | now constructor]
                   | assumption].
      now rewrite <- !app_assoc.
    + rewrite insert_unpopular.
      * rewrite <- app_assoc.
        rewrite IH; [| assumption
                     | apply Forall_app; split; [assumption | now constructor]].
        now rewrite <- !app_assoc.
      * assumption.
      * apply Forall_app; split.
        -- eapply List.Forall_impl; [| exact HT]. simpl. intros y Hy. congruence.
        -- eapply List.Forall_impl; [| exact HF]. simpl. intros y Hy. congruence.
Qed.

(** With every entry flagged and an empty search text, the mode 'popular'
    lists the popular entries and then the others, each group in the order
    of the catalogue. *)
Lemma popular_first (catalog : list Lettuce) :
  Forall (fun y => popular y <> None) catalog ->
  filteredLettuces catalog (mkState "" "popular")
  = List.filter isPopular catalog ++ List.filter isUnpopular catalog.
Proof.
  intros H. unfold filteredLettuces; simpl.
  rewrite empty_query_keeps_all. unfold JS.sort.
  apply (fold_insert_popular catalog [] [] H); constructor.
Qed.

(** In the mode 'all' the comparator answers 0 and the order of the array
    is kept. *)
Lemma insert_all (mode : string) (x : Lettuce) (l : list Lettuce) :
  mode <> "az" -> mode <> "popular" ->
  JS.insert (compareItems mode) x l = l ++ [x].
Proof.
  intros Haz Hpop. apply String.eqb_neq in Haz, Hpop.
  induction l as [|y l IH]; simpl; [reflexivity |].
  replace (JS.sortCompare (compareItems mode) x y) with 0%Z.
  - simpl. now rewrite IH.
  - unfold JS.sortCompare, compareItems. now rewrite Haz, Hpop.
Qed.

Lemma all_keeps_order (catalog : list Lettuce) (q : string) :
  filteredLettuces catalog (mkState q "all")
  = List.filter (matchesQuery q) catalog.
Proof.
  unfold filteredLettuces, JS.sort; simpl.
  generalize (List.filter (matchesQuery q) catalog) as l. intros l.
  change l with ([] ++ l) at 2. generalize (@nil Lettuce) as acc.
  induction l as [|x l IH]; intros acc; simpl.
  - now rewrite app_nil_r.
  - rewrite insert_all by discriminate. rewrite IH. now rewrite <- app_assoc.
Qed.

(** [filter] hands back a new array and [sort] reorders that one. *)
Lemma render_spec (h : gmap positive (list Lettuce)) (catalog : JSArray.ref)
    (arr : list Lettuce) (st : State) :
  h !! catalog = Some arr ->
  renderFilteredLettuces catalog st h
  = Some (fresh (dom h),
          <[fresh (dom h) := filteredLettuces arr st]> h).
Proof.
  intros H.
  unfold renderFilteredLettuces, JSArray.andThen, JSArray.filter,
    JSArray.alloc, JSArray.sort.
  rewrite H. rewrite lookup_insert_eq. rewrite insert_insert_eq.
  reflexivity.
Qed.

(** C8: computing the view, for any search text and mode, yields a new
    array holding the filtered and ordered entries and leaves the array of
    the catalogue, like every other array of the heap, with the elements it
    had, in the same order. *)
Theorem render_keeps_catalog (h : gmap positive (list Lettuce))
    (catalog : JSArray.ref) (arr : list Lettuce) (st : State) :
  h !! catalog = Some arr ->
  exists r h',
    renderFilteredLettuces catalog st h = Some (r, h')
    /\ r <> catalog
    /\ h' !! r = Some (filteredLettuces arr st)
    /\ h' !! catalog = Some arr
    /\ forall a, a <> r -> h' !! a = h !! a.
Proof.
  intros H.
  exists (fresh (dom h)), (<[fresh (dom h) := filteredLettuces arr st]> h).
  assert (Hfresh : fresh (dom h) <> catalog).
  { assert (Hin : catalog ∈ dom h) by (apply elem_of_dom; now exists arr).
    intros E. subst catalog. exact (is_fresh _ Hin). }
  split; [now apply render_spec |].
  split; [assumption |].
  split; [apply lookup_insert_eq |].
  split.
  - rewrite lookup_insert_ne by assumption. assumption.
  - intros a Ha. apply lookup_insert_ne. intros E. apply Ha. now symmetry.
Qed.

Lemma render_keeps_catalog_witness :
  exists r h',
    renderFilteredLettuces originalLettucesRef (mkState "oak" "az")
      initialHeap = Some (r, h')
    /\ r <> originalLettucesRef
    /\ h' !! r = Some [oakLeaf]
    /\ h' !! originalLettucesRef = Some originalLettuces
    /\ forall a, a <> r -> h' !! a = initialHeap !! a.
Proof.
  apply (render_keeps_catalog initialHeap originalLettucesRef
           originalLettuces (mkState "oak" "az")).
  reflexivity.
Defined.


(** The order of the mode 'az' on the three entries does not depend on the
    collation beyond the order it gives to the three names. *)
Lemma az_three_entries_any_collation
    (comparefn : Lettuce -> Lettuce -> JS.number) :
  (JS.sortCompare comparefn butterhead romaine < 0)%Z ->
  (0 <= JS.sortCompare comparefn oakLeaf butterhead)%Z ->
  (JS.sortCompare comparefn oakLeaf romaine < 0)%Z ->
  JS.sort comparefn [romaine; butterhead; oakLeaf]
  = [butterhead; oakLeaf; romaine].
Proof.
  intros Hbr Hob Hor. unfold JS.sort; simpl.
  apply Z.ltb_lt in Hbr, Hor. apply Z.ltb_ge in Hob.
  rewrite Hbr; simpl. rewrite Hob; simpl. now rewrite Hor.
Qed.



(** On the static catalogue the comparator of the mode 'popular' is not
    consistent: the place holders have no [popular] flag, compare equal
    ([NaN]) with every entry, and so link entries that do not compare
    equal. For such a comparator ECMAScript leaves the order to the
    engine. *)
Lemma popular_not_consistent_on_catalogue :
  JS.notAfter (compareItems "popular") cos comingSoon5
  /\ JS.notAfter (compareItems "popular") comingSoon5 romaine
  /\ ~ JS.notAfter (compareItems "popular") cos romaine.
Proof.
  unfold JS.notAfter. repeat split; vm_compute; congruence.
Qed.

(** The whole catalogue in the mode 'az'. *)
Lemma az_whole_catalogue :
  filteredLettuces originalLettuces (mkState "" "az")
  = [butterhead; comingSoon5; comingSoon6; cos; oakLeaf; romaine].
Proof. reflexivity. Qed.

(** The search ignores the case of the search text. *)
Lemma search_ignores_case (catalog : list Lettuce) (q q' mode : string) :
  JS.toLowerCase q = JS.toLowerCase q' ->
  filteredLettuces catalog (mkState q mode)
  = filteredLettuces catalog (mkState q' mode).
Proof.
  intros H. unfold filteredLettuces; simpl. f_equal.
  apply filter_ext. intros x. unfold matchesQuery. now rewrite H.
Qed.

(** C9: the search text "oak" keeps the entry Oak Leaf of the static
    catalogue and no other, in every filter mode. *)
Theorem search_oak (mode : string) :
  filteredLettuces originalLettuces (mkState "oak" mode) = [oakLeaf].
Proof. reflexivity. Qed.

End SelectionFacts.

(* ===================================================================== *)
(** ** Toggles *)
(* ===================================================================== *)

Module ToggleFacts.
Import React.

(** One activation of a profile toggle negates its flag, on every
    platform. *)
Lemma toggleAgreeEthics_negates (os : string) (st : ProfileScreen.State) :
  ProfileScreen.agreeEthics (ProfileScreen.toggleAgreeEthics os st)
  = negb (ProfileScreen.agreeEthics st).
Proof.
  unfold ProfileScreen.toggleAgreeEthics.
  destruct (String.eqb os "web"); reflexivity.
Qed.

Lemma toggleNotificationsEnabled_negates (os : string)
    (st : ProfileScreen.State) :
  ProfileScreen.notificationsEnabled
    (ProfileScreen.toggleNotificationsEnabled os st)
  = negb (ProfileScreen.notificationsEnabled st).
Proof.
  unfold ProfileScreen.toggleNotificationsEnabled.
  destruct (String.eqb os "web"); reflexivity.
Qed.

(** Outside the browser a press on the information icon negates the
    tooltip flag of its modal; in the browser it changes nothing. *)
Lemma onPressInfo_native (os : string) (m : InsightsScreen.Metric)
    (st : InsightsScreen.State) :
  os <> "web" ->
  InsightsScreen.onPressInfo os m st (InsightsScreen.ShowTooltip m)
  = negb (st (InsightsScreen.ShowTooltip m)).
Proof.
  intros Hos. apply String.eqb_neq in Hos.
  unfold InsightsScreen.onPressInfo. rewrite Hos. simpl.
  destruct m; reflexivity.
Qed.

Lemma onPressInfo_web (m : InsightsScreen.Metric)
    (st : InsightsScreen.State) :
  InsightsScreen.onPressInfo "web" m st = st.
Proof. reflexivity. Qed.

Lemma Metric_eqb_eq (a b : InsightsScreen.Metric) :
  InsightsScreen.Metric_eqb a b = true <-> a = b.
Proof. destruct a, b; simpl; split; intros H; congruence. Qed.

Lemma Flag_eqb_eq (a b : InsightsScreen.Flag) :
  InsightsScreen.Flag_eqb a b = true <-> a = b.
Proof.
  destruct a as [m | m], b as [n | n]; simpl;
    rewrite ?Metric_eqb_eq; split; intros H; congruence.
Qed.

(** The toggle of a tooltip negates its flag and leaves the other flags
    alone. *)
Lemma toggleTooltip_flag (m : InsightsScreen.Metric)
    (g : InsightsScreen.Flag) (st : InsightsScreen.State) :
  InsightsScreen.toggleTooltip m st g
  = if InsightsScreen.Flag_eqb (InsightsScreen.ShowTooltip m) g
    then negb (st g) else st g.
Proof.
  unfold InsightsScreen.toggleTooltip, InsightsScreen.setFlag.
  cbn [applyAction].
  destruct (InsightsScreen.Flag_eqb (InsightsScreen.ShowTooltip m) g) eqn:E;
    [| reflexivity].
  apply Flag_eqb_eq in E. now subst g.
Qed.

(** The updater form [prev => !prev] does the same as the value form. *)
Lemma updater_is_toggle (m : InsightsScreen.Metric)
    (g : InsightsScreen.Flag) (st : InsightsScreen.State) :
  InsightsScreen.setFlag (InsightsScreen.ShowTooltip m) (Updater negb) st g
  = InsightsScreen.toggleTooltip m st g.
Proof. reflexivity. Qed.

(** What a press on the information icon does to each flag. *)
Lemma onPressInfo_flag (os : string) (m : InsightsScreen.Metric)
    (st : InsightsScreen.State) (g : InsightsScreen.Flag) :
  InsightsScreen.onPressInfo os m st g
  = if String.eqb os "web" then st g
    else if InsightsScreen.Flag_eqb (InsightsScreen.ShowTooltip m) g
         then negb (st g) else st g.
Proof.
  unfold InsightsScreen.onPressInfo.
  destruct (String.eqb os "web"); cbn [negb]; [reflexivity |].
  rewrite <- toggleTooltip_flag. now destruct m.
Qed.

(** C10: every toggle in the source replaces its flag by the negation of
    the flag, touches nothing else, and gives back the state it started
    from when it is activated twice, from every starting state: the press
    on the information icon of an insight modal, which negates the tooltip
    flag of that modal (in the browser the press is switched off and
    changes nothing), and the ethics and notifications toggles of the
    profile screen, on every platform. *)
Theorem toggle_twice :
  (forall os m st flag,
     InsightsScreen.onPressInfo os m st flag
     = (if String.eqb os "web" then st flag
        else if InsightsScreen.Flag_eqb (InsightsScreen.ShowTooltip m) flag
             then negb (st flag) else st flag)
     /\ InsightsScreen.onPressInfo os m
          (InsightsScreen.onPressInfo os m st) flag = st flag)
  /\ (forall os st,
        ProfileScreen.toggleAgreeEthics os st
        = {| ProfileScreen.user := ProfileScreen.user st;
             ProfileScreen.mail := ProfileScreen.mail st;
             ProfileScreen.pass := ProfileScreen.pass st;
             ProfileScreen.agreeEthics :=
               negb (ProfileScreen.agreeEthics st);
             ProfileScreen.notificationsEnabled :=
               ProfileScreen.notificationsEnabled st |}
        /\ ProfileScreen.toggleAgreeEthics os
             (ProfileScreen.toggleAgreeEthics os st) = st)
  /\ (forall os st,
        ProfileScreen.toggleNotificationsEnabled os st
        = {| ProfileScreen.user := ProfileScreen.user st;
             ProfileScreen.mail := ProfileScreen.mail st;
             ProfileScreen.pass := ProfileScreen.pass st;
             ProfileScreen.agreeEthics := ProfileScreen.agreeEthics st;
             ProfileScreen.notificationsEnabled :=
               negb (ProfileScreen.notificationsEnabled st) |}
        /\ ProfileScreen.toggleNotificationsEnabled os
             (ProfileScreen.toggleNotificationsEnabled os st) = st).
Proof.
  split; [| split].
  - intros os m st flag. split; [apply onPressInfo_flag |].
    rewrite !onPressInfo_flag.
    destruct (String.eqb os "web"); [reflexivity |].
    destruct (InsightsScreen.Flag_eqb (InsightsScreen.ShowTooltip m) flag);
      [apply negb_involutive | reflexivity].
  - intros os [u e p a n]. unfold ProfileScreen.toggleAgreeEthics.
    destruct (String.eqb os "web"); destruct a; split; reflexivity.
  - intros os [u e p a n]. unfold ProfileScreen.toggleNotificationsEnabled.
    destruct (String.eqb os "web"); destruct n; split; reflexivity.
Qed.

End ToggleFacts.

(* ===================================================================== *)
(** ** What the validation of sign-up guarantees *)
(* ===================================================================== *)

Module ValidationFacts.
Import App SignUpScreen SignUpComponent RegExpFacts SignUpFacts.

Lemma countChar_append (c : ascii) (a b : string) :
  countChar c (a ++ b)%string = countChar c a + countChar c b.
Proof.
  induction a as [|x a IH]; [reflexivity |].
  rewrite append_cons. simpl. rewrite IH. lia.
Qed.

Lemma allChars_append (p : ascii -> bool) (a b : string) :
  allChars p (a ++ b)%string = allChars p a && allChars p b.
Proof.
  induction a as [|x a IH]; [reflexivity |].
  rewrite append_cons. simpl. rewrite IH. apply andb_assoc.
Qed.

Lemma length_append (a b : string) :
  String.length (a ++ b)%string = String.length a + String.length b.
Proof.
  induction a as [|x a IH]; [reflexivity |].
  rewrite append_cons. simpl. now rewrite IH.
Qed.

Lemma allChars_impl (p q : ascii -> bool) (s : string) :
  (forall c, p c = true -> q c = true) ->
  allChars p s = true -> allChars q s = true.
Proof.
  intros Hpq. induction s as [|c s IH]; simpl; [reflexivity |].
  intros H. apply andb_true_iff in H as [Hc Hs].
  now rewrite (Hpq c Hc), IH.
Qed.

Lemma notSpaceAt_not_space (c : ascii) :
  notSpaceAt c = true -> negb (JS.isWhiteSpace c) = true.
Proof.
  unfold notSpaceAt. intros H. apply negb_true_iff in H.
  apply orb_false_iff in H as [H _]. now rewrite H.
Qed.

Lemma part_no_at (s : string) : part s -> countChar "@" s = 0.
Proof.
  intros [_ H]. induction s as [|c s IH]; [reflexivity |].
  simpl in *. apply andb_true_iff in H as [Hc Hs].
  unfold notSpaceAt in Hc. apply negb_true_iff in Hc.
  apply orb_false_iff in Hc as [_ Hc]. now rewrite Hc, IH.
Qed.

Lemma part_length (s : string) : part s -> 1 <= String.length s.
Proof. intros [Hne _]. destruct s; [congruence | simpl; lia]. Qed.

(** X1: an e-mail address that passes the check of [handleSignUp] has
    exactly one [@], no white space, at least five characters, and a dot
    somewhere behind the [@]. *)
Theorem accepted_email_facts (s : string) :
  RegExp.test emailRegex s = true ->
  countChar "@" s = 1
  /\ allChars (fun c => negb (JS.isWhiteSpace c)) s = true
  /\ 5 <= String.length s
  /\ exists localpart rest,
       s = (localpart ++ "@" ++ rest)%string /\ 1 <= countChar "." rest.
Proof.
  intros H. apply emailRegex_shape in H as (l & d & t & -> & Hl & Hd & Ht).
  repeat split.
  - rewrite !countChar_append.
    rewrite (part_no_at _ Hl), (part_no_at _ Hd), (part_no_at _ Ht).
    reflexivity.
  - rewrite !allChars_append.
    destruct Hl as [_ Hl], Hd as [_ Hd], Ht as [_ Ht].
    rewrite (allChars_impl _ _ _ notSpaceAt_not_space Hl).
    rewrite (allChars_impl _ _ _ notSpaceAt_not_space Hd).
    rewrite (allChars_impl _ _ _ notSpaceAt_not_space Ht).
    reflexivity.
  - rewrite !length_append.
    pose proof (part_length _ Hl). pose proof (part_length _ Hd).
    pose proof (part_length _ Ht). simpl. lia.
  - exists l, (d ++ "." ++ t)%string. split; [reflexivity |].
    rewrite !countChar_append. simpl. lia.
Qed.

Lemma accepted_email_facts_witness :
  countChar "@" "a@b.c" = 1
  /\ allChars (fun c => negb (JS.isWhiteSpace c)) "a@b.c" = true
  /\ 5 <= String.length "a@b.c"
  /\ exists localpart rest,
       "a@b.c" = (localpart ++ "@" ++ rest)%string
       /\ 1 <= countChar "." rest.
Proof. apply (accepted_email_facts "a@b.c"). reflexivity. Defined.

Lemma passesChecks_valid (f : Form) :
  passesChecks f = true <-> validForm f.
Proof.
  unfold passesChecks, validForm. rewrite !andb_true_iff.
  rewrite !truthy_nonempty. tauto.
Qed.

(** X2: whatever the form and the platform, [handleSignUp] shows exactly
    one notification and writes nothing to the console; it changes the
    navigation only in the browser and only for a form that passes the
    three checks, and the session user name only outside the browser and
    only for such a form. *)
Theorem signUp_effects (os : string) (f : Form) (w : World) :
  let w' := exec (handleSignUp os f) w in
  (exists n, notices w' = notices w ++ [n])
  /\ console w' = console w
  /\ routes w'
     = (if passesChecks f && String.eqb os "web"
        then dashboard (username f) :: routes w else routes w)
  /\ contextUsername w'
     = (if passesChecks f && negb (String.eqb os "web")
        then Some (username f) else contextUsername w).
Proof.
  destruct f as [u e p a]. unfold handleSignUp, passesChecks; simpl.
  destruct (JS.truthy u), (JS.truthy e), (JS.truthy p),
    (RegExp.test emailRegex e), a, (String.eqb os "web"); simpl;
    (split; [eexists; reflexivity | repeat split; reflexivity]).
Qed.

Lemma iter_pressAgree (n : nat) (f : Form) :
  Nat.iter n pressAgree f
  = {| username := username f; email := email f; password := password f;
       agree := xorb (Nat.odd n) (agree f) |}.
Proof.
  induction n as [|n IH].
  - destruct f; reflexivity.
  - rewrite Nat.odd_succ, <- Nat.negb_odd, Nat.iter_succ, IH.
    unfold pressAgree, CustomCheckBox_onPress, setAgree; simpl.
    now destruct (Nat.odd n), (agree f).
Qed.

(** X3: with the three fields filled in and a well-formed address, the
    sign-up button succeeds after an odd number of presses on the check
    box and fails with [TermsNotAccepted] after an even number. *)
Theorem checkbox_parity (n : nat) (os u e p : string) (w : World) :
  u <> "" -> e <> "" -> p <> "" -> RegExp.test emailRegex e = true ->
  let f := Nat.iter n pressAgree (mkForm u e p false) in
  if Nat.odd n then validForm f
  else failsWith os TermsNotAccepted w (exec (handleSignUp os f) w).
Proof.
  intros Hu He Hp Hre. cbv zeta. rewrite iter_pressAgree. simpl.
  rewrite xorb_false_r.
  apply truthy_nonempty in Hu, He, Hp.
  destruct (Nat.odd n).
  - unfold validForm; simpl. rewrite <- !truthy_nonempty. auto.
  - unfold handleSignUp, failsWith; simpl. rewrite Hu, He, Hp, Hre. simpl.
    destruct (String.eqb os "web"); now repeat split.
Qed.

Lemma checkbox_parity_witness :
  validForm (Nat.iter 3 pressAgree (mkForm "alice" "a@b.c" "pw" false))
  /\ failsWith "ios" TermsNotAccepted initialWorld
       (exec (handleSignUp "ios"
                (Nat.iter 2 pressAgree (mkForm "alice" "a@b.c" "pw" false)))
          initialWorld).
Proof.
  split.
  - apply (checkbox_parity 3 "ios" "alice" "a@b.c" "pw" initialWorld);
      try discriminate; reflexivity.
  - apply (checkbox_parity 2 "ios" "alice" "a@b.c" "pw" initialWorld);
      try discriminate; reflexivity.
Defined.

End ValidationFacts.

(* ===================================================================== *)
(** ** Login attempts and the session *)
(* ===================================================================== *)

Module LoginFacts.
Import App LoginScreen LoginSession SignUpFacts.

(** X4: [handleLogin] does not look at the password beyond its being
    non-empty: two non-empty passwords give the same world. *)
Theorem login_ignores_password (os u p p' : string) (w : World) :
  p <> "" -> p' <> "" ->
  exec (handleLogin os u p) w = exec (handleLogin os u p') w.
Proof.
  intros Hp Hp'. apply truthy_nonempty in Hp, Hp'.
  unfold handleLogin. now rewrite Hp, Hp'.
Qed.

Lemma login_ignores_password_witness :
  exec (handleLogin "web" "alice" "secret") initialWorld
  = exec (handleLogin "web" "alice" "x") initialWorld.
Proof. apply login_ignores_password; discriminate. Defined.

Lemma login_step (os : string) (a : string * string) (w : World) :
  let w' := exec (handleLogin os (fst a) (snd a)) w in
  contextUsername w'
  = (if accepted a then Some (fst a) else contextUsername w)
  /\ routes w'
     = (if accepted a then [dashboard (fst a)] else routes w)
  /\ List.length (notices w')
     = List.length (notices w) + (if accepted a then 0 else 1).
Proof.
  destruct a as [u p]. unfold handleLogin, accepted, alert; simpl.
  destruct (JS.truthy u), (JS.truthy p); simpl;
    try (destruct (String.eqb os "web")); simpl;
    rewrite ?length_app; simpl; repeat split; lia.
Qed.

Lemma lastAccepted_from (attempts : list (string * string))
    (acc : option string) :
  fold_left (fun acc a => if accepted a then Some (fst a) else acc)
    attempts acc
  = match lastAccepted attempts with
    | Some u => Some u
    | None => acc
    end.
Proof.
  unfold lastAccepted. revert acc.
  induction attempts as [|a l IH]; intros acc; simpl; [reflexivity |].
  rewrite IH. rewrite (IH (if accepted a then Some (fst a) else None)).
  destruct (fold_left _ l None); [reflexivity |].
  now destruct (accepted a).
Qed.

(** X5: after any sequence of presses on the login button, the session
    holds the user name of the last attempt with both fields filled in, or
    what it held before when there was none; the navigation stack is then
    the dashboard of that user alone; and one error notification was shown
    for each attempt with an empty field. *)
Theorem login_attempts (os : string) (attempts : list (string * string))
    (w : World) :
  let w' := loginAll os attempts w in
  contextUsername w'
  = match lastAccepted attempts with
    | Some u => Some u
    | None => contextUsername w
    end
  /\ routes w'
     = match lastAccepted attempts with
       | Some u => [dashboard u]
       | None => routes w
       end
  /\ List.length (notices w')
     = List.length (notices w)
       + List.length (List.filter (fun a => negb (accepted a)) attempts).
Proof.
  unfold loginAll, lastAccepted. revert w.
  induction attempts as [|a l IH]; intros w; simpl.
  - repeat split. lia.
  - destruct (IH (exec (handleLogin os (fst a) (snd a)) w))
      as (Hc & Hr & Hn).
    destruct (login_step os a w) as (Sc & Sr & Sn).
    rewrite Hc, Hr, Hn, Sc, Sr, Sn.
    rewrite (lastAccepted_from l (if accepted a then Some (fst a) else None)).
    unfold lastAccepted.
    destruct (fold_left _ l None); destruct (accepted a); simpl;
      repeat split; lia.
Qed.

End LoginFacts.

(* ===================================================================== *)
(** ** Greetings and the web navbar *)
(* ===================================================================== *)

Module GreetingFacts.
Import App JSOps Greeting SignUpFacts.

(** X7: after a login with both fields filled in, the navbar that the
    platform renders greets the submitted user: off the browser the top
    navbar shows 'Hi' and the name and the web navbar is absent; in the
    browser the top navbar is absent and the web navbar shows 'Hi' and the
    name, on a route without a user name as on a route with the name that
    [handleLogin] passed. On every platform a profile screen opened
    without a user name in its route shows the submitted name in its
    form. *)
Theorem login_reaches_session_readers (os u p : string) (routeEmail
    : option string) (w : World) :
  u <> "" -> p <> "" ->
  let ctx := contextUsername (exec (LoginScreen.handleLogin os u p) w) in
  topNavbarGreeting os ctx
  = (if String.eqb os "web" then None else Some ("Hi " ++ u)%string)
  /\ WebNavbar.greeting os None ctx
     = (if String.eqb os "web" then Some ("Hi " ++ u)%string else None)
  /\ WebNavbar.greeting os (Some u) ctx
     = (if String.eqb os "web" then Some ("Hi " ++ u)%string else None)
  /\ ProfileScreen.user (mountProfile None routeEmail ctx) = u.
Proof.
  intros Hu Hp. apply truthy_nonempty in Hu, Hp.
  unfold LoginScreen.handleLogin. rewrite Hu, Hp. simpl.
  unfold topNavbarGreeting, WebNavbar.greeting, WebNavbar.rendered,
    WebNavbar.displayUsername, mountProfile, orOpt, orElse; simpl.
  rewrite Hu. destruct (String.eqb os "web"); now repeat split.
Qed.

Lemma login_reaches_session_readers_witness :
  topNavbarGreeting "ios"
    (contextUsername
       (exec (LoginScreen.handleLogin "ios" "alice" "pw") initialWorld))
  = Some "Hi alice"
  /\ WebNavbar.greeting "web" None
       (contextUsername
          (exec (LoginScreen.handleLogin "web" "alice" "pw") initialWorld))
     = Some "Hi alice".
Proof.
  split.
  - apply (login_reaches_session_readers "ios" "alice" "pw" None
             initialWorld); discriminate.
  - apply (login_reaches_session_readers "web" "alice" "pw" None
             initialWorld); discriminate.
Defined.

Lemma web_signUp_session (f : SignUpScreen.Form) (w : World) :
  contextUsername (exec (SignUpScreen.handleSignUp "web" f) w)
  = contextUsername w.
Proof.
  destruct f as [u e p a]. unfold SignUpScreen.handleSignUp; simpl.
  destruct (JS.truthy u), (JS.truthy e), (JS.truthy p),
    (RegExp.test SignUpScreen.emailRegex e), a; reflexivity.
Qed.

(** X8: a sign-up in the browser, valid or not, never reaches the session:
    the session holds what it held before, so the web navbar, the reader
    of the session that the browser renders, shows the user name of its
    route if the route has one, else the name the session held before the
    sign-up, else 'User', and not the name submitted; a profile form
    opened without a user name in its route shows the name the session
    held before, or nothing; the top navbar is absent. *)
Theorem web_signUp_invisible_to_session_readers (f : SignUpScreen.Form)
    (param routeEmail : option string) (w : World) :
  let ctx' := contextUsername (exec (SignUpScreen.handleSignUp "web" f) w) in
  ctx' = contextUsername w
  /\ WebNavbar.greeting "web" param ctx'
     = Some ("Hi " ++ match param, contextUsername w with
                      | Some n, _ => n
                      | None, Some c => c
                      | None, None => "User"
                      end)%string
  /\ ProfileScreen.user (mountProfile None routeEmail ctx')
     = match contextUsername w with
       | Some (String c s) => String c s
       | _ => ""
       end
  /\ topNavbarGreeting "web" ctx' = None.
Proof.
  cbv zeta. rewrite web_signUp_session. repeat split.
  - unfold WebNavbar.greeting, WebNavbar.displayUsername; simpl.
    now destruct param, (contextUsername w).
  - unfold mountProfile, orOpt, orElse; simpl.
    now destruct (contextUsername w) as [[|c s]|].
Qed.

End GreetingFacts.

Module NavbarFacts.
Import JSOps WebNavbar.

(** X9: in the web navbar the route parameter wins over the session, even
    when it is the empty string; pressing any item but Logout passes the
    name on display to the next route, so that the navbar of that route
    shows the same name whatever the session holds then; Logout goes to
    the route Icon without a user name. *)
Theorem navbar_keeps_name (item : NavItem) (param ctx ctx' : option string) :
  In item NAV_ITEMS ->
  let shown := displayUsername param ctx in
  let nav := onPressItem item shown in
  target nav = route item
  /\ (label item <> "Logout" ->
        displayUsername (usernameParam nav) ctx' = shown)
  /\ (label item = "Logout" ->
        target nav = "Icon" /\ usernameParam nav = None).
Proof.
  intros Hin. cbv zeta. unfold onPressItem.
  simpl in Hin.
  destruct Hin as [<- | [<- | [<- | [<- | [<- | []]]]]]; simpl;
    repeat split; try reflexivity; try discriminate; intros H;
    congruence.
Qed.

Lemma navbar_keeps_name_witness :
  displayUsername
    (usernameParam
       (onPressItem (mkNavItem "Profile" "Profile")
          (displayUsername (Some "") (Some "alice"))))
    (Some "bob")
  = "".
Proof.
  destruct (navbar_keeps_name (mkNavItem "Profile" "Profile")
              (Some "") (Some "alice") (Some "bob")) as (_ & H & _).
  - simpl. tauto.
  - apply H. discriminate.
Defined.

Lemma lower_route_names :
  map (fun i => JS.toLowerCase (route i)) NAV_ITEMS
  = ["dashboardmain"; "search"; "insights"; "profile"; "icon"].
Proof. reflexivity. Qed.

(** X10: whatever the name of the current route, at most one item of the
    web navbar is drawn active, and an item is active exactly when its
    route equals the current route up to case: the clause for a route
    named 'Home' never applies, no item having that route. *)
Theorem navbar_one_active (routeName : string) (i j : NavItem) :
  In i NAV_ITEMS -> In j NAV_ITEMS ->
  (isActive i routeName = true <->
   JS.toLowerCase routeName = JS.toLowerCase (route i))
  /\ (isActive i routeName = true -> isActive j routeName = true -> i = j).
Proof.
  intros Hi Hj.
  assert (Hact : forall k, In k NAV_ITEMS ->
    (isActive k routeName = true <->
     JS.toLowerCase routeName = JS.toLowerCase (route k))).
  { intros k Hk. unfold isActive. simpl in Hk.
    destruct Hk as [<- | [<- | [<- | [<- | [<- | []]]]]]; simpl;
      apply String.eqb_eq. }
  split; [now apply Hact |].
  intros Ai Aj. apply (Hact i Hi) in Ai. apply (Hact j Hj) in Aj.
  rewrite Ai in Aj. clear Ai Hact.
  simpl in Hi, Hj.
  destruct Hi as [<- | [<- | [<- | [<- | [<- | []]]]]];
    destruct Hj as [<- | [<- | [<- | [<- | [<- | []]]]]];
    try reflexivity; vm_compute in Aj; discriminate.
Qed.

Lemma navbar_one_active_witness :
  isActive (mkNavItem "Search" "Search") "SEARCH" = true
  /\ (isActive (mkNavItem "Search" "Search") "SEARCH" = true ->
      isActive (mkNavItem "Search" "Search") "SEARCH" = true ->
      mkNavItem "Search" "Search" = mkNavItem "Search" "Search").
Proof.
  destruct (navbar_one_active "SEARCH" (mkNavItem "Search" "Search")
              (mkNavItem "Search" "Search")) as [H1 H2].
  - simpl. tauto.
  - simpl. tauto.
  - split; [apply H1; reflexivity | exact H2].
Defined.

End NavbarFacts.

(* ===================================================================== *)
(** ** The search text *)
(* ===================================================================== *)

Module SearchFacts.
Import SelectionScreen RegExpFacts.

Lemma prefix_spec (x s : string) :
  String.prefix x s = true <-> exists post, s = (x ++ post)%string.
Proof.
  revert s. induction x as [|a x IH]; intros s.
  - split; [intros _; now exists s | intros _; now destruct s].
  - destruct s as [|b s]; simpl.
    + split; [discriminate | intros [post H]; rewrite append_cons in H;
                             discriminate].
    + destruct (ascii_dec a b) as [-> | Hne].
      * rewrite IH. split; intros [post H]; exists post.
        -- now rewrite append_cons, H.
        -- rewrite append_cons in H. now injection H.
      * split; [discriminate |].
        intros [post H]. rewrite append_cons in H. injection H as E _.
        congruence.
Qed.

(** [includes] is the occurrence as a contiguous part. *)
Lemma includes_spec (s x : string) :
  JS.includes s x = true <->
  exists pre post, s = (pre ++ x ++ post)%string.
Proof.
  induction s as [|c s IH].
  - cbn [JS.includes]. destruct (String.prefix x "") eqn:E.
    + apply prefix_spec in E as [post E]. split; [| reflexivity].
      intros _. now exists "", post.
    + split; [discriminate |].
      intros (pre & post & H). exfalso.
      symmetry in H. apply append_eq_nil in H as [-> H].
      assert (Hp : String.prefix x "" = true)
        by (apply prefix_spec; now exists post).
      congruence.
  - cbn [JS.includes]. destruct (String.prefix x (String c s)) eqn:E.
    + apply prefix_spec in E as [post E]. split; [| reflexivity].
      intros _. now exists "", post.
    + rewrite IH. split.
      * intros (pre & post & ->). exists (String c pre), post.
        now rewrite append_cons.
      * intros (pre & post & H). destruct pre as [|c' pre].
        -- rewrite append_nil_l in H.
           assert (Hp : String.prefix x (String c s) = true)
             by (apply prefix_spec; now exists post).
           congruence.
        -- rewrite append_cons in H. injection H as _ ->.
           now exists pre, post.
Qed.

Lemma toLowerCase_append (a b : string) :
  JS.toLowerCase (a ++ b)%string
  = (JS.toLowerCase a ++ JS.toLowerCase b)%string.
Proof.
  induction a as [|c a IH]; [reflexivity |].
  rewrite append_cons. simpl. now rewrite IH, append_cons.
Qed.

Lemma lowerChar_idempotent (c : ascii) :
  JS.lowerChar (JS.lowerChar c) = JS.lowerChar c.
Proof.
  destruct c as [[] [] [] [] [] [] [] []]; vm_compute; reflexivity.
Qed.

Lemma toLowerCase_idempotent (s : string) :
  JS.toLowerCase (JS.toLowerCase s) = JS.toLowerCase s.
Proof.
  induction s as [|c s IH]; simpl; [reflexivity |].
  now rewrite lowerChar_idempotent, IH.
Qed.

(** X11: an entry passes the search exactly when its name, in lower case,
    contains the search text, in lower case, as a contiguous part; so an
    empty search text keeps every entry. *)
Theorem search_is_substring (q : string) (item : Lettuce) :
  (matchesQuery q item = true <->
   exists pre post,
     JS.toLowerCase (name item)
     = (pre ++ JS.toLowerCase q ++ post)%string)
  /\ matchesQuery "" item = true.
Proof.
  split.
  - unfold matchesQuery. apply includes_spec.
  - unfold matchesQuery. apply includes_spec.
    exists "", (JS.toLowerCase (name item)). reflexivity.
Qed.

(** X12: typing more can only narrow the search: an entry that passes for
    the text [q ++ r] passes for [q] and for [r]. *)
Theorem search_narrows (q r : string) (item : Lettuce) :
  matchesQuery (q ++ r)%string item = true ->
  matchesQuery q item = true /\ matchesQuery r item = true.
Proof.
  unfold matchesQuery. rewrite !includes_spec, toLowerCase_append.
  intros (pre & post & H). split.
  - exists pre, (JS.toLowerCase r ++ post)%string.
    now rewrite H, !append_assoc.
  - exists (pre ++ JS.toLowerCase q)%string, post.
    now rewrite H, !append_assoc.
Qed.

Lemma search_narrows_witness :
  matchesQuery "oak" oakLeaf = true /\ matchesQuery " leaf" oakLeaf = true.
Proof. apply (search_narrows "oak" " leaf" oakLeaf). reflexivity. Defined.

(** X13: the view does not depend on the case of the search text: the
    text and its lower-case form give the same view of any catalogue in
    any mode. *)
Theorem search_case_insensitive (catalog : list Lettuce) (q mode : string) :
  filteredLettuces catalog (mkState (JS.toLowerCase q) mode)
  = filteredLettuces catalog (mkState q mode).
Proof.
  unfold filteredLettuces; simpl. f_equal.
  apply filter_ext. intros x. unfold matchesQuery.
  now rewrite toLowerCase_idempotent.
Qed.

End SearchFacts.

(* ===================================================================== *)
(** ** The view, for every catalogue *)
(* ===================================================================== *)

Module ViewFacts.
Import App SelectionScreen LettuceCards RenderLoop.

Lemma view_perm (catalog : list Lettuce) (st : State) :
  Permutation (filteredLettuces catalog st)
    (List.filter (matchesQuery (searchQuery st)) catalog).
Proof. unfold filteredLettuces. apply SortFacts.sort_perm. Qed.

Lemma view_in (catalog : list Lettuce) (st : State) (x : Lettuce) :
  In x (filteredLettuces catalog st) ->
  In x catalog /\ matchesQuery (searchQuery st) x = true.
Proof.
  intros H. apply filter_In.
  eapply Permutation_in; [apply view_perm | exact H].
Qed.

(** X14: in every mode, known or not, the view holds exactly the entries
    of the catalogue that pass the search, each as often as the catalogue
    does: sorting drops, adds and repeats nothing. *)
Theorem view_is_matching_entries (catalog : list Lettuce) (st : State) :
  Permutation (filteredLettuces catalog st)
    (List.filter (matchesQuery (searchQuery st)) catalog)
  /\ (forall x, In x (filteredLettuces catalog st) <->
                In x catalog /\ matchesQuery (searchQuery st) x = true)
  /\ List.length (filteredLettuces catalog st) <= List.length catalog.
Proof.
  split; [apply view_perm | split].
  - intros x. rewrite <- filter_In. split; apply Permutation_in;
      [| symmetry]; apply view_perm.
  - rewrite (Permutation_length (view_perm catalog st)).
    apply List.filter_length_le.
Qed.

(** X15: a mode other than 'az' and 'popular' ('all', or any string the
    state might hold) keeps the matching entries in the order of the
    catalogue. *)
Theorem other_mode_keeps_order (catalog : list Lettuce) (q mode : string) :
  mode <> "az" -> mode <> "popular" ->
  filteredLettuces catalog (mkState q mode)
  = List.filter (matchesQuery q) catalog.
Proof.
  intros Haz Hpop. unfold filteredLettuces, JS.sort; simpl.
  generalize (List.filter (matchesQuery q) catalog) as l. intros l.
  change l with ([] ++ l) at 2. generalize (@nil Lettuce) as acc.
  induction l as [|x l IH]; intros acc; simpl.
  - now rewrite app_nil_r.
  - rewrite SelectionFacts.insert_all by assumption.
    rewrite IH. now rewrite <- app_assoc.
Qed.

Lemma other_mode_keeps_order_witness :
  filteredLettuces originalLettuces (mkState "co" "all")
  = [cos; comingSoon5; comingSoon6].
Proof.
  apply (other_mode_keeps_order originalLettuces "co" "all"); discriminate.
Defined.



(** X17: in the mode 'popular', on a catalogue whose entries all carry the
    [popular] flag and with an empty search text, the view lists the
    popular entries and then the others, each group in the order of the
    catalogue. *)
Theorem popular_view (catalog : list Lettuce) :
  Forall (fun y => popular y <> None) catalog ->
  filteredLettuces catalog (mkState "" "popular")
  = List.filter isPopular catalog ++ List.filter isUnpopular catalog.
Proof. apply SelectionFacts.popular_first. Qed.

Lemma popular_view_witness :
  filteredLettuces [butterhead; romaine; cos; oakLeaf] (mkState "" "popular")
  = [romaine; oakLeaf; butterhead; cos].
Proof.
  apply (popular_view [butterhead; romaine; cos; oakLeaf]).
  repeat constructor; discriminate.
Defined.

(** X18: from any state, whatever string the mode holds, one press on the
    filter button gives one of the three modes and keeps the search text;
    from then on three presses come back to the same state. *)
Theorem filter_press_settles (st : State) :
  let st1 := handleFilterPress st in
  In (filter st1) ["all"; "az"; "popular"]
  /\ searchQuery st1 = searchQuery st
  /\ handleFilterPress (handleFilterPress (handleFilterPress st1)) = st1.
Proof.
  destruct st as [q m]. unfold handleFilterPress; simpl.
  destruct (String.eqb m "all"); [simpl; tauto |].
  destruct (String.eqb m "az"); simpl; tauto.
Qed.

(** X19: whatever the search text and the mode, a card of the view of the
    static catalogue either is a place holder named 'Coming Soon', whose
    press only shows a notification, or opens the detail screen for its
    own name and image; the detail screen then has a subtitle and the
    scientific facts for that name, and no 'Coming Soon' button. *)
Theorem card_press (os : string) (st : State) (item : Lettuce) :
  In item (filteredLettuces originalLettuces st) ->
  match onPressCard os item with
  | Notify _ => isPlaceholder item = true /\ name item = "Coming Soon"
  | OpenDetail n img =>
      n = name item /\ img = image item
      /\ subtitle n <> None /\ facts n <> None
      /\ buttons n = ["Lettuce added!"]
  end.
Proof.
  intros H. apply view_in in H as [H _]. simpl in H.
  destruct H as [<- | [<- | [<- | [<- | [<- | [<- | []]]]]]];
    unfold onPressCard; simpl;
    try (destruct (String.eqb os "web"); simpl; now split);
    repeat split; discriminate.
Qed.

Lemma card_press_witness :
  match onPressCard "ios" oakLeaf with
  | Notify _ => isPlaceholder oakLeaf = true /\ name oakLeaf = "Coming Soon"
  | OpenDetail n img =>
      n = name oakLeaf /\ img = image oakLeaf
      /\ subtitle n <> None /\ facts n <> None
      /\ buttons n = ["Lettuce added!"]
  end.
Proof.
  apply (card_press "ios" (mkState "oak" "az") oakLeaf).
  simpl. left. reflexivity.
Defined.

(** X20: any number of renders, with any search texts and modes, succeeds
    and hands the grid arrays that are new, different from one another and
    hold the views of the catalogue for the states rendered; every array
    the heap held before, the catalogue among them, keeps its contents. *)
Theorem renders_keep_heap (sts : list State)
    (h : gmap positive (list Lettuce)) (catalog : JSArray.ref)
    (arr : list Lettuce) :
  h !! catalog = Some arr ->
  exists rs h',
    renderAll catalog sts h = Some (rs, h')
    /\ Forall2 (fun r st => h' !! r = Some (filteredLettuces arr st)) rs sts
    /\ Forall (fun r => r ∉ dom h) rs
    /\ NoDup rs
    /\ forall a, a ∈ dom h -> h' !! a = h !! a.
Proof.
  revert h. induction sts as [|st sts IH]; intros h Hc.
  - exists [], h. repeat split; constructor.
  - set (r := fresh (dom h)).
    set (h1 := <[r := filteredLettuces arr st]> h).
    assert (Hr : r ∉ dom h) by apply is_fresh.
    assert (Hne : r <> catalog).
    { intros E. apply Hr. rewrite E. apply elem_of_dom. now exists arr. }
    assert (Hc1 : h1 !! catalog = Some arr).
    { unfold h1. now rewrite lookup_insert_ne. }
    destruct (IH h1 Hc1) as (rs & h' & Hrun & Hviews & Hnew & Hnd & Hframe).
    assert (Hdom : forall a, a ∈ dom h -> a ∈ dom h1).
    { intros a Ha. unfold h1. rewrite dom_insert_L. set_solver. }
    assert (Hr1 : r ∈ dom h1).
    { unfold h1. rewrite dom_insert_L. set_solver. }
    exists (r :: rs), h'. split; [| split; [| split; [| split]]].
    + cbn [renderAll]. unfold JSArray.andThen at 1.
      rewrite (SelectionFacts.render_spec h catalog arr st Hc).
      fold r h1. unfold JSArray.andThen. now rewrite Hrun.
    + constructor; [| assumption].
      etransitivity; [apply (Hframe r Hr1) |].
      unfold h1. apply lookup_insert_eq.
    + constructor; [assumption |].
      eapply List.Forall_impl; [| exact Hnew].
      intros a Ha Hin. apply Ha. now apply Hdom.
    + constructor; [| assumption].
      intros Hin. rewrite List.Forall_forall in Hnew.
      apply list_elem_of_In in Hin. now apply (Hnew r Hin).
    + intros a Ha. rewrite (Hframe a (Hdom a Ha)).
      unfold h1. apply lookup_insert_ne. intros E. apply Hr. now rewrite E.
Qed.

Lemma renders_keep_heap_witness :
  exists rs h',
    renderAll originalLettucesRef [mkState "oak" "az"; mkState "" "all"]
      initialHeap = Some (rs, h')
    /\ Forall2 (fun r st =>
                  h' !! r = Some (filteredLettuces originalLettuces st))
         rs [mkState "oak" "az"; mkState "" "all"]
    /\ Forall (fun r => r ∉ dom initialHeap) rs
    /\ NoDup rs
    /\ forall a, a ∈ dom initialHeap -> h' !! a = initialHeap !! a.
Proof.
  apply (renders_keep_heap [mkState "oak" "az"; mkState "" "all"]
           initialHeap originalLettucesRef originalLettuces).
  reflexivity.
Defined.

End ViewFacts.

(* ===================================================================== *)
(** ** Insight modals *)
(* ===================================================================== *)

Module InsightsFacts.
Import React InsightsScreen InsightsControls.

Lemma Flag_eqb_neq (f g : Flag) : f <> g -> Flag_eqb f g = false.
Proof.
  intros H. destruct (Flag_eqb f g) eqn:E; [| reflexivity].
  apply ToggleFacts.Flag_eqb_eq in E. contradiction.
Qed.

Lemma Flag_eqb_refl (f : Flag) : Flag_eqb f f = true.
Proof. now apply ToggleFacts.Flag_eqb_eq. Qed.

(** X21: the water slider and the stored preference agree: a position 0,
    1 or 2 is found again after it was stored, a preference Low, Medium or
    High is found again after it was shown, and whatever value the slider
    reports the preference stored is one of the three. *)
Theorem slider_round_trip (value : Z) (pref : string) :
  ((0 <= value <= 2)%Z -> sliderValue (prefOfValue value) = value)
  /\ (In pref ["Low"; "Medium"; "High"] ->
      prefOfValue (sliderValue pref) = pref)
  /\ In (prefOfValue value) ["Low"; "Medium"; "High"]
  /\ (0 <= sliderValue pref <= 2)%Z.
Proof.
  repeat split.
  - intros H. unfold prefOfValue.
    destruct (Z.eqb_spec value 0) as [-> | H0]; [reflexivity |].
    destruct (Z.eqb_spec value 1) as [-> | H1]; [reflexivity |].
    assert (value = 2%Z) as -> by lia. reflexivity.
  - intros [<- | [<- | [<- | []]]]; reflexivity.
  - unfold prefOfValue.
    destruct (value =? 0)%Z; [simpl; tauto |].
    destruct (value =? 1)%Z; simpl; tauto.
  - unfold sliderValue. destruct (String.eqb pref "Low"); [lia |].
    destruct (String.eqb pref "Medium"); lia.
  - unfold sliderValue. destruct (String.eqb pref "Low"); [lia |].
    destruct (String.eqb pref "Medium"); lia.
Qed.

Lemma slider_round_trip_witness :
  sliderValue (prefOfValue 2) = 2%Z
  /\ prefOfValue (sliderValue "Low") = "Low".
Proof.
  destruct (slider_round_trip 2 "Low") as (Hv & Hp & _).
  split; [apply Hv; lia | apply Hp; simpl; tauto].
Defined.

(** X22: the information icon of an insight modal touches no flag but the
    tooltip flag of its own modal. In the browser a press on it changes
    nothing, the tooltip shows while the pointer is over the icon and is
    hidden when the pointer has left; on the other platforms the pointer
    handlers change nothing and a press negates the flag. *)
Theorem info_icon_handlers (os : string) (m : Metric) (st : State) :
  (forall g, g <> ShowTooltip m ->
     onPressInfo os m st g = st g
     /\ onMouseEnter os m st g = st g
     /\ onMouseLeave os m st g = st g)
  /\ (os = "web" ->
      onPressInfo os m st = st
      /\ onMouseEnter os m st (ShowTooltip m) = true
      /\ onMouseLeave os m (onMouseEnter os m st) (ShowTooltip m) = false)
  /\ (os <> "web" ->
      onMouseEnter os m st = st
      /\ onMouseLeave os m st = st
      /\ onPressInfo os m st (ShowTooltip m) = negb (st (ShowTooltip m))).
Proof.
  split; [| split].
  - intros g Hg.
    assert (Hf : Flag_eqb (ShowTooltip m) g = false)
      by (apply Flag_eqb_neq; congruence).
    unfold onPressInfo, onMouseEnter, onMouseLeave.
    destruct (String.eqb os "web"); cbn [negb].
    + unfold setFlag. rewrite Hf. auto.
    + repeat split. destruct m; unfold toggleTooltip, setFlag;
        now rewrite Hf.
  - intros ->. unfold onPressInfo, onMouseEnter, onMouseLeave.
    cbn [String.eqb Ascii.eqb Bool.eqb negb]. unfold setFlag.
    rewrite !Flag_eqb_refl. auto.
  - intros Hos. apply String.eqb_neq in Hos.
    unfold onPressInfo, onMouseEnter, onMouseLeave. rewrite Hos.
    cbn [negb]. repeat split.
    destruct m; unfold toggleTooltip, setFlag; now rewrite Flag_eqb_refl.
Qed.

Lemma info_icon_handlers_witness :
  onPressInfo "ios" Ph initialState (ShowModal Ph) = false
  /\ onPressInfo "ios" Ph initialState (ShowTooltip Ph) = true
  /\ onMouseLeave "web" Ph (onMouseEnter "web" Ph initialState)
       (ShowTooltip Ph) = false.
Proof.
  destruct (info_icon_handlers "ios" Ph initialState) as (Hframe & _ & Hn).
  destruct (info_icon_handlers "web" Ph initialState) as (_ & Hw & _).
  split; [| split].
  - apply (Hframe (ShowModal Ph)). discriminate.
  - destruct Hn as (_ & _ & ->); [discriminate | reflexivity].
  - apply Hw. reflexivity.
Defined.

Lemma stageIndices_eq : stageIndices = [0; 1; 2; 3]%Z.
Proof. reflexivity. Qed.

(** X23: for any [currentStage] given to the growth card, every stage is
    in exactly one of the states completed, current and upcoming; the
    green circles are those of the first [currentStage + 1] stages, capped
    to the four stages; and the summary names a stage exactly when
    [currentStage] is 0, 1, 2 or 3, in which case that stage alone is
    current. *)
Theorem growth_stages (currentStage idx : Z) :
  (isCompleted currentStage idx && negb (isCurrent currentStage idx)
     && negb (isUpcoming currentStage idx)
   || negb (isCompleted currentStage idx) && isCurrent currentStage idx
      && negb (isUpcoming currentStage idx)
   || negb (isCompleted currentStage idx)
      && negb (isCurrent currentStage idx)
      && isUpcoming currentStage idx) = true
  /\ Z.of_nat (List.length (List.filter (circleGreen currentStage)
                              stageIndices))
     = Z.min 4 (Z.max 0 (currentStage + 1))
  /\ (stageLabel currentStage <> None <-> (0 <= currentStage < 4)%Z)
  /\ List.length (List.filter (isCurrent currentStage) stageIndices)
     = match stageLabel currentStage with
       | Some _ => 1
       | None => 0
       end.
Proof.
  assert (Hcases : (currentStage < 0 \/ currentStage = 0 \/ currentStage = 1
                    \/ currentStage = 2 \/ currentStage = 3
                    \/ 4 <= currentStage)%Z) by lia.
  split; [| split; [| split]].
  - unfold isCompleted, isCurrent, isUpcoming. rewrite Z.gtb_ltb.
    destruct (Z.ltb_spec idx currentStage), (Z.eqb_spec idx currentStage),
      (Z.ltb_spec currentStage idx); simpl; try reflexivity; lia.
  - rewrite stageIndices_eq. cbn [List.filter].
    unfold circleGreen, isCompleted, isCurrent.
    repeat match goal with
           | |- context [(?a <? ?b)%Z] => destruct (Z.ltb_spec a b)
           | |- context [(?a =? ?b)%Z] => destruct (Z.eqb_spec a b)
           end; simpl; lia.
  - unfold stageLabel.
    destruct Hcases as [H | [-> | [-> | [-> | [-> | H]]]]];
      try (simpl; split; [lia | discriminate]).
    + destruct (Z.ltb_spec currentStage 0); [| lia].
      split; [congruence | lia].
    + destruct (Z.ltb_spec currentStage 0); [lia |].
      split; [| lia]. intros Hl. exfalso. apply Hl.
      assert (E : nth_error stages (Z.to_nat currentStage) = None)
        by (apply nth_error_None; simpl; lia).
      now rewrite E.
  - rewrite stageIndices_eq. unfold stageLabel, isCurrent.
    destruct Hcases as [H | [-> | [-> | [-> | [-> | H]]]]];
      try reflexivity.
    + destruct (Z.ltb_spec currentStage 0); [| lia]. cbn [List.filter].
      repeat match goal with
             | |- context [(?a =? ?b)%Z] => destruct (Z.eqb_spec a b)
             end; simpl; lia.
    + destruct (Z.ltb_spec currentStage 0); [lia |].
      assert (E : nth_error stages (Z.to_nat currentStage) = None)
        by (apply nth_error_None; simpl; lia).
      rewrite E. cbn [List.filter option_map].
      repeat match goal with
             | |- context [(?a =? ?b)%Z] => destruct (Z.eqb_spec a b)
             end; simpl; lia.
Qed.

End InsightsFacts.

Module LogoutFacts.
Import App Logout Greeting SignUpFacts.

Lemma logout_frame (os shown : string) (w : World) :
  contextUsername (exec (logout os shown) w) = contextUsername w
  /\ option_map routeName (focused (exec (logout os shown) w))
     = Some "Icon".
Proof. unfold logout. destruct (String.eqb os "web"); split; reflexivity. Qed.

(** X24: logging out does not clear the session. After a login with both
    fields filled in, the logout control that the platform renders (the
    logout button of the top navbar, or in the browser the item Logout of
    the web navbar) gives the focus to the route Icon and leaves the
    submitted user name in the session. The navbar of the platform (the
    top navbar, or in the browser the web navbar on a route without a user
    name) would still greet that user, and a profile form opened without a
    user name in its route would still show the name. *)
Theorem logout_keeps_session (os u p shown : string) (w : World) :
  u <> "" -> p <> "" ->
  let w1 := exec (LoginScreen.handleLogin os u p) w in
  let w2 := exec (logout os shown) w1 in
  contextUsername w2 = Some u
  /\ option_map routeName (focused w2) = Some "Icon"
  /\ topNavbarGreeting os (contextUsername w2)
     = (if String.eqb os "web" then None else Some ("Hi " ++ u)%string)
  /\ WebNavbar.greeting os None (contextUsername w2)
     = (if String.eqb os "web" then Some ("Hi " ++ u)%string else None)
  /\ ProfileScreen.user (mountProfile None None (contextUsername w2)) = u.
Proof.
  intros Hu Hp. cbv zeta.
  destruct (logout_frame os shown (exec (LoginScreen.handleLogin os u p) w))
    as (H1 & H2).
  rewrite H1, H2.
  apply truthy_nonempty in Hu, Hp.
  unfold LoginScreen.handleLogin. rewrite Hu, Hp. simpl.
  unfold topNavbarGreeting, WebNavbar.greeting, WebNavbar.rendered,
    WebNavbar.displayUsername, mountProfile, JSOps.orOpt, JSOps.orElse;
    simpl.
  rewrite Hu. destruct (String.eqb os "web"); now repeat split.
Qed.

Lemma logout_keeps_session_witness :
  contextUsername
    (exec (logout "ios" "alice")
       (exec (LoginScreen.handleLogin "ios" "alice" "pw") initialWorld))
  = Some "alice"
  /\ contextUsername
       (exec (logout "web" "alice")
          (exec (LoginScreen.handleLogin "web" "alice" "pw") initialWorld))
     = Some "alice".
Proof.
  split.
  - apply (logout_keeps_session "ios" "alice" "pw" "alice" initialWorld);
      discriminate.
  - apply (logout_keeps_session "web" "alice" "pw" "alice" initialWorld);
      discriminate.
Defined.

End LogoutFacts.
